(** * ultrasonics/database.py: the persistence layer over sqlite3

    A shallow embedding of [src/ultrasonics/database.py].  The
    definitions come first:

    - [Float]: IEEE 754 doubles, the reading of a decimal and [repr];
    - [Python]: the values the module passes around, [str()] as applied on
      every write and [ast.literal_eval] as applied on every read;
    - [Literal]: the same codec on all the values the specification
      names, floats and strings of any code points included;
    - [Sqlite]: the three tables with their column affinities and the
      statements the module issues;
    - [Database]: the module's functions, one definition per [def], with
      the [try ... except sqlite3.Error] boundary made explicit;
    - [CodecView], [Observe], [SettingsSpec], [Samples], [Listing],
      [FloatView], [LiteralView]: what the statements below are worded
      with.

    The facts follow, one module per component: [CodecFacts],
    [FloatFacts], [LiteralFacts], [AppletFacts], [RecordFacts],
    [PluginFacts], [SettingsFacts], and then the laws of the operations
    taken together: [AppletLaws], [PluginLaws], [SettingsLaws],
    [ConnectLaws].

    Python is taken as of version 3.10 or later, SQLite as of 3.40 on
    x86-64.  Interpreter resource limits (recursion depth, the integer
    digit limit) are outside the model. *)

From Stdlib Require Import ZArith NArith List String Ascii Bool Lia.
From Stdlib Require Import DecimalString DecimalN DecimalZ DecimalPos DecimalFacts.
Import ListNotations.
Open Scope string_scope.
Set Warnings "-register-all".

(** ** Text helpers *)

Module Text.

(** [sep.join(parts)] *)
Fixpoint join (sep : string) (parts : list string) : string :=
  match parts with
  | [] => ""
  | [p] => p
  | p :: rest => p ++ sep ++ join sep rest
  end.

Fixpoint contains (c : ascii) (s : string) : bool :=
  match s with
  | EmptyString => false
  | String x s' => Ascii.eqb x c || contains c s'
  end.

(** [s.lstrip(" \t")] *)
Fixpoint lstrip (s : string) : string :=
  match s with
  | String c s' =>
      if Ascii.eqb c " " || Ascii.eqb c "009" then lstrip s' else s
  | EmptyString => EmptyString
  end.

Definition code (c : ascii) : N := N_of_ascii c.

Definition is_digit (c : ascii) : bool := (48 <=? code c)%N && (code c <=? 57)%N.

Definition is_ident (c : ascii) : bool :=
  ((65 <=? code c)%N && (code c <=? 90)%N)
  || ((97 <=? code c)%N && (code c <=? 122)%N)
  || Ascii.eqb c "_".

Definition hex_digit (n : N) : ascii :=
  if (n <? 10)%N then ascii_of_N (48 + n) else ascii_of_N (87 + n).

Definition hex_val (c : ascii) : option N :=
  let n := code c in
  if is_digit c then Some (n - 48)%N
  else if (97 <=? n)%N && (n <=? 102)%N then Some (n - 87)%N
  else if (65 <=? n)%N && (n <=? 70)%N then Some (n - 55)%N
  else None.

End Text.

(** ** Floating point numbers

    Python's [float] and SQLite's [REAL] are IEEE 754 binary64 numbers.
    A finite number that is not negative is named by its position [n]
    among them in increasing order, which is its bit pattern: the
    exponent field times [2 ^ 52] plus the fraction field.  Position [0]
    is zero and position [top] is infinity. *)

Module Float.
Import Text.

Definition two52 : N := 4503599627370496.

Definition top : N := 9218868437227405312.

(** The number at position [n] is [mant n * 2 ^ expo n]. *)
Definition mant (n : N) : N :=
  if (n <? two52)%N then n else (two52 + n mod two52)%N.

Definition expo (n : N) : Z :=
  if (n <? two52)%N then (-1074)%Z else (Z.of_N (n / two52) - 1075)%Z.

(** [a / b] against the point half way between the numbers at [n] and
    [n + 1], which is [(2 * mant n + 1) * 2 ^ (expo n - 1)]. *)
Definition cmp_mid (n a b : N) : comparison :=
  (N.shiftl a (Z.to_N (1 - expo n))
   ?= N.shiftl (2 * mant n + 1) (Z.to_N (expo n - 1)) * b)%N.

(** Rounding to nearest, ties to the even fraction: [a / b] is rounded
    to position [n] or to a higher one. *)
Definition reaches (n a b : N) : bool :=
  if (n =? 0)%N then true
  else match cmp_mid (N.pred n) a b with
       | Gt => true
       | Eq => N.even n
       | Lt => false
       end.

Definition rounds_to (n a b : N) : bool :=
  reaches n a b && negb (reaches (n + 1) a b).

(** The position [a / b] is rounded to, found bit by bit from the top. *)
Fixpoint search (a b : N) (bits : nat) (n : N) : N :=
  match bits with
  | O => n
  | S k =>
      let n' := (n + N.shiftl 1 (N.of_nat k))%N in
      if (n' <=? top)%N && reaches n' a b then search a b k n' else search a b k n
  end.

(** The correctly rounded conversion of [float(text)] and of a float
    literal, on the fraction [a / b]. *)
Definition strtod (a b : N) : N := search a b 63 0.

(** The decimal [c * 10 ^ q] as a fraction. *)
Definition dec_num (c : N) (q : Z) : N := (c * 10 ^ Z.to_N q)%N.

Definition dec_den (q : Z) : N := (10 ^ Z.to_N (- q))%N.

(** [10 ^ k <= x] for the number [x] at position [n]. *)
Definition pow10_le (k : Z) (n : N) : bool :=
  (N.shiftl (10 ^ Z.to_N k) (Z.to_N (- expo n))
   <=? N.shiftl (mant n) (Z.to_N (expo n)) * 10 ^ Z.to_N (- k))%N.

(** The decimal exponent of the first digit: the largest [k] with
    [10 ^ k <= x], looked for around an estimate from the binary
    exponent. *)
Definition decade (n : N) : Z :=
  let est := ((Z.of_N (N.log2 (mant n)) + expo n) * 30103 / 100000)%Z in
  if pow10_le (est + 1) n then (est + 1)%Z
  else if pow10_le est n then est
  else if pow10_le (est - 1) n then (est - 1)%Z
  else (-324)%Z.

(** [x / 10 ^ q] rounded down, and on which side of the middle between
    that and the next integer it lies. *)
Definition candidates (n : N) (q : Z) : N * comparison :=
  let a := (N.shiftl (mant n) (Z.to_N (expo n)) * 10 ^ Z.to_N (- q))%N in
  let b := (N.shiftl 1 (Z.to_N (- expo n)) * 10 ^ Z.to_N q)%N in
  ((a / b)%N, (2 * (a mod b) ?= b)%N).

Definition nearest (lo : N) (side : comparison) : N :=
  match side with
  | Lt => lo
  | Gt => (lo + 1)%N
  | Eq => if N.even lo then lo else (lo + 1)%N
  end.

(** The digits [repr] writes: the shortest decimal that is rounded back
    to [x], and of those the one nearest to [x].  Seventeen digits are
    always enough. *)
Fixpoint find_digits (n : N) (fuel : nat) (q : Z) : N * Z :=
  let (lo, side) := candidates n q in
  let okl := rounds_to n (dec_num lo q) (dec_den q) in
  let okh := rounds_to n (dec_num (lo + 1) q) (dec_den q) in
  if okl && okh then (nearest lo side, q)
  else if okl then (lo, q)
  else if okh then ((lo + 1)%N, q)
  else match fuel with
       | O => (nearest lo side, q)
       | S f => find_digits n f (q - 1)
       end.

Fixpoint strip_zeros (fuel : nat) (c : N) (q : Z) : N * Z :=
  match fuel with
  | O => (c, q)
  | S f =>
      if ((c mod 10 =? 0) && (0 <? c))%N then strip_zeros f (c / 10)%N (q + 1)%Z
      else (c, q)
  end.

Definition shortest (n : N) : N * Z :=
  let (c, q) := find_digits n 16 (decade n) in strip_zeros 20 c q.

(** Decimal digits. *)
Definition digit_char (d : N) : ascii := ascii_of_N (48 + d).

Fixpoint digits_from (fuel : nat) (n : N) (acc : string) : string :=
  match fuel with
  | O => acc
  | S f =>
      let acc' := String (digit_char (n mod 10)) acc in
      if (n <? 10)%N then acc' else digits_from f (n / 10)%N acc'
  end.

Definition digits_of (n : N) : string :=
  digits_from (S (N.to_nat (N.log2 n))) n EmptyString.



Fixpoint zeros (n : nat) : string :=
  match n with
  | O => EmptyString
  | S n' => String "0" (zeros n')
  end.

Fixpoint take (n : nat) (s : string) : string :=
  match n, s with
  | S n', String c r => String c (take n' r)
  | _, _ => EmptyString
  end.

Fixpoint drop (n : nat) (s : string) : string :=
  match n, s with
  | S n', String _ r => drop n' r
  | _, _ => s
  end.

(** The exponent of the scientific notation: a sign and at least two
    digits. *)
Definition exponent_text (x : Z) : string :=
  (if (x <? 0)%Z then "e-" else "e+")
    ++ (if (Z.abs x <? 10)%Z then "0" else "") ++ digits_of (Z.to_N (Z.abs x)).

(** The digits after the first, behind a point if there are any. *)
Definition fraction (r : string) : string :=
  match r with
  | EmptyString => ""
  | _ => String "." r
  end.

(** [repr] of the digits [ds] with the decimal point [decpt] places
    after the first: plain notation while the point is at most four
    places to the left and at most sixteen places to the right of the
    first digit, scientific notation otherwise. *)
Definition place_point (ds : string) (decpt : Z) : string :=
  if ((decpt <=? -4) || (16 <? decpt))%Z then
    take 1 ds ++ fraction (drop 1 ds) ++ exponent_text (decpt - 1)
  else if (decpt <=? 0)%Z then "0." ++ zeros (Z.to_nat (- decpt)) ++ ds
  else if (Z.of_nat (String.length ds) <=? decpt)%Z then
    ds ++ zeros (Z.to_nat decpt - String.length ds) ++ ".0"
  else take (Z.to_nat decpt) ds ++ String "." (drop (Z.to_nat decpt) ds).

(** [repr(x)] for the finite [x] of the given sign at position [n]. *)
Definition float_repr (negative : bool) (n : N) : string :=
  (if negative then "-" else "")
    ++ (if (n =? 0)%N then "0.0"
        else let (c, q) := shortest n in
             let ds := digits_of c in
             place_point ds (Z.of_nat (String.length ds) + q)).

End Float.

(** ** Python values, [str()] and [ast.literal_eval] *)

Module Python.
Import Text.

(** The values that reach the database layer: [None], booleans, integers,
    strings (sequences of code points below 256), lists and dicts.  A dict
    is kept as its items in insertion order. *)
Inductive pyval : Type :=
| PNone
| PBool (b : bool)
| PInt (z : Z)
| PStr (s : string)
| PList (items : list pyval)
| PDict (entries : list (pyval * pyval)).

(** Exceptions that are not [sqlite3.Error].  [LiteralError] stands for
    whatever [ast.literal_eval] raises on text it cannot evaluate
    ([ValueError], [SyntaxError], [TypeError], ...). *)
Inductive exn : Type :=
| IndexError
| KeyError
| OverflowError
| LiteralError.

(** *** [repr] and [str] *)

Definition repr_int (z : Z) : string := NilEmpty.string_of_int (Z.to_int z).

(** Code points above 126 that [repr] leaves as they are (the printable
    part of Latin-1: everything from 0xa1 on except the soft hyphen). *)
Definition printable_high (c : ascii) : bool :=
  (161 <=? code c)%N && negb (code c =? 173)%N.

Definition escape_char (q c : ascii) : string :=
  if Ascii.eqb c q || Ascii.eqb c "\" then String "\" (String c "")
  else if Ascii.eqb c "009" then "\t"
  else if Ascii.eqb c "010" then "\n"
  else if Ascii.eqb c "013" then "\r"
  else if ((32 <=? code c)%N && (code c <? 127)%N) || printable_high c
       then String c ""
  else String "\" (String "x"
         (String (hex_digit (code c / 16)) (String (hex_digit (code c mod 16)) ""))).

Fixpoint escape_body (q : ascii) (s : string) : string :=
  match s with
  | EmptyString => ""
  | String c s' => escape_char q c ++ escape_body q s'
  end.

(** [repr] prefers single quotes and switches to double quotes only when
    the string has a single quote and no double quote. *)
Definition quote_for (s : string) : ascii :=
  if contains "'" s && negb (contains "034" s) then "034"%char else "'"%char.

Definition repr_str (s : string) : string :=
  let q := quote_for s in
  String q (escape_body q s ++ String q "").

Fixpoint repr (v : pyval) : string :=
  match v with
  | PNone => "None"
  | PBool true => "True"
  | PBool false => "False"
  | PInt z => repr_int z
  | PStr s => repr_str s
  | PList items => "[" ++ join ", " (map repr items) ++ "]"
  | PDict entries =>
      "{" ++ join ", " (map (fun kv => repr (fst kv) ++ ": " ++ repr (snd kv)) entries)
          ++ "}"
  end.

(** [str(v)]: a string is returned as it is, everything else goes through
    [repr]. *)
Definition str (v : pyval) : string :=
  match v with
  | PStr s => s
  | _ => repr v
  end.

(** *** [ast.literal_eval]

    The text is cut into tokens by a scanner that reads one character at a
    time, and the tokens are read by a recursive-descent parser.  The
    fragment covered is the one [repr] writes, with the freedom the Python
    grammar gives inside it: blanks between tokens, either quote, the
    one-letter and [\xhh] escapes, a sign before a number, a trailing
    comma. *)

Inductive token : Type :=
| TLBrack | TRBrack | TLBrace | TRBrace | TComma | TColon | TMinus | TPlus
| TInt (n : N)
| TStr (s : string)
| TName (s : string).

Inductive lstate : Type :=
| LIdle
| LNum (ds : string)
| LName (cs : string)
| LStr (q : ascii) (cs : string)
| LEsc (q : ascii) (cs : string)
| LHex1 (q : ascii) (cs : string)
| LHex2 (q : ascii) (cs : string) (hi : N).

Definition snoc (s : string) (c : ascii) : string := s ++ String c "".

(** A decimal literal: digits only, and no leading zero unless the value
    is zero. *)
Definition num_token (ds : string) : option token :=
  match NilEmpty.uint_of_string ds with
  | Some d =>
      let n := N.of_uint d in
      match ds with
      | String "0" _ => if (n =? 0)%N then Some (TInt n) else None
      | _ => Some (TInt n)
      end
  | None => None
  end.

Definition unescape (c : ascii) : option ascii :=
  if Ascii.eqb c "\" then Some "\"%char
  else if Ascii.eqb c "'" then Some "'"%char
  else if Ascii.eqb c "034" then Some "034"%char
  else if Ascii.eqb c "n" then Some "010"%char
  else if Ascii.eqb c "r" then Some "013"%char
  else if Ascii.eqb c "t" then Some "009"%char
  else if Ascii.eqb c "a" then Some "007"%char
  else if Ascii.eqb c "b" then Some "008"%char
  else if Ascii.eqb c "f" then Some "012"%char
  else if Ascii.eqb c "v" then Some "011"%char
  else None.

Definition idle_step (c : ascii) : option (lstate * list token) :=
  if Ascii.eqb c " " || Ascii.eqb c "009" then Some (LIdle, [])
  else if Ascii.eqb c "[" then Some (LIdle, [TLBrack])
  else if Ascii.eqb c "]" then Some (LIdle, [TRBrack])
  else if Ascii.eqb c "{" then Some (LIdle, [TLBrace])
  else if Ascii.eqb c "}" then Some (LIdle, [TRBrace])
  else if Ascii.eqb c "," then Some (LIdle, [TComma])
  else if Ascii.eqb c ":" then Some (LIdle, [TColon])
  else if Ascii.eqb c "-" then Some (LIdle, [TMinus])
  else if Ascii.eqb c "+" then Some (LIdle, [TPlus])
  else if Ascii.eqb c "'" || Ascii.eqb c "034" then Some (LStr c "", [])
  else if is_digit c then Some (LNum (String c ""), [])
  else if is_ident c then Some (LName (String c ""), [])
  else None.

Definition step (st : lstate) (c : ascii) : option (lstate * list token) :=
  match st with
  | LIdle => idle_step c
  | LNum ds =>
      if is_digit c then Some (LNum (snoc ds c), [])
      else if is_ident c then None
      else match num_token ds, idle_step c with
           | Some t, Some (st', out) => Some (st', t :: out)
           | _, _ => None
           end
  | LName cs =>
      if is_ident c || is_digit c then Some (LName (snoc cs c), [])
      else match idle_step c with
           | Some (st', out) => Some (st', TName cs :: out)
           | None => None
           end
  | LStr q cs =>
      if Ascii.eqb c q then Some (LIdle, [TStr cs])
      else if Ascii.eqb c "\" then Some (LEsc q cs, [])
      else if Ascii.eqb c "000" || Ascii.eqb c "010" || Ascii.eqb c "013" then None
      else Some (LStr q (snoc cs c), [])
  | LEsc q cs =>
      match unescape c with
      | Some d => Some (LStr q (snoc cs d), [])
      | None => if Ascii.eqb c "x" then Some (LHex1 q cs, []) else None
      end
  | LHex1 q cs =>
      match hex_val c with
      | Some hi => Some (LHex2 q cs hi, [])
      | None => None
      end
  | LHex2 q cs hi =>
      match hex_val c with
      | Some lo => Some (LStr q (snoc cs (ascii_of_N (16 * hi + lo))), [])
      | None => None
      end
  end.

Definition finish (st : lstate) : option (list token) :=
  match st with
  | LIdle => Some []
  | LNum ds => option_map (fun t => [t]) (num_token ds)
  | LName cs => Some [TName cs]
  | _ => None
  end.

Fixpoint lex (st : lstate) (s : string) : option (list token) :=
  match s with
  | EmptyString => finish st
  | String c s' =>
      match step st c with
      | Some (st', out) => option_map (app out) (lex st' s')
      | None => None
      end
  end.

(** The three names that are constants of the language. *)
Definition constant_of_name (n : string) : option pyval :=
  if String.eqb n "None" then Some PNone
  else if String.eqb n "True" then Some (PBool true)
  else if String.eqb n "False" then Some (PBool false)
  else None.

(** A dict, as its items in insertion order. *)
Definition dict : Type := list (pyval * pyval).

(** Dict keys.  Python compares and hashes [True] as [1] and [False] as
    [0]; lists and dicts are not hashable. *)
Definition hashable (v : pyval) : bool :=
  match v with
  | PList _ | PDict _ => false
  | _ => true
  end.

Inductive keyclass : Type :=
| KNone
| KNum (z : Z)
| KStr (s : string).

Definition key_class (v : pyval) : option keyclass :=
  match v with
  | PNone => Some KNone
  | PBool b => Some (KNum (if b then 1 else 0))
  | PInt z => Some (KNum z)
  | PStr s => Some (KStr s)
  | PList _ | PDict _ => None
  end.

Definition keyclass_eqb (a b : keyclass) : bool :=
  match a, b with
  | KNone, KNone => true
  | KNum x, KNum y => Z.eqb x y
  | KStr s, KStr t => String.eqb s t
  | _, _ => false
  end.

(** [a == b] between values of which at least one is hashable. *)
Definition key_eqb (a b : pyval) : bool :=
  match key_class a, key_class b with
  | Some x, Some y => keyclass_eqb x y
  | _, _ => false
  end.

Definition has_key (k : pyval) (d : list (pyval * pyval)) : bool :=
  existsb (fun kv => key_eqb (fst kv) k) d.

(** [d[k] = v]: the value of an equal key is replaced where it stands, a
    new key goes to the end. *)
Fixpoint dict_set (d : list (pyval * pyval)) (k v : pyval) : list (pyval * pyval) :=
  match d with
  | [] => [(k, v)]
  | (k', v') :: rest =>
      if key_eqb k' k then (k', v) :: rest else (k', v') :: dict_set rest k v
  end.

(** [d[k]], with [None] for the [KeyError] of a missing key. *)
Fixpoint dict_get (d : list (pyval * pyval)) (k : pyval) : option pyval :=
  match d with
  | [] => None
  | (k', v') :: rest => if key_eqb k' k then Some v' else dict_get rest k
  end.

(** [dict(zip(keys, values))]; [None] is the [TypeError] of an unhashable
    key. *)
Fixpoint dict_of_pairs (acc : list (pyval * pyval)) (kvs : list (pyval * pyval))
  : option (list (pyval * pyval)) :=
  match kvs with
  | [] => Some acc
  | (k, v) :: rest =>
      if hashable k then dict_of_pairs (dict_set acc k v) rest else None
  end.

Fixpoint parse_value (fuel : nat) (ts : list token) : option (pyval * list token) :=
  match fuel with
  | O => None
  | S f =>
      match ts with
      | TName n :: r => option_map (fun v => (v, r)) (constant_of_name n)
      | TInt n :: r => Some (PInt (Z.of_N n), r)
      | TMinus :: TInt n :: r => Some (PInt (- Z.of_N n), r)
      | TPlus :: TInt n :: r => Some (PInt (Z.of_N n), r)
      | TStr s :: r => Some (PStr s, r)
      | TLBrack :: r =>
          match parse_items f r with
          | Some (vs, r') => Some (PList vs, r')
          | None => None
          end
      | TLBrace :: r =>
          match parse_entries f r with
          | Some (kvs, r') =>
              option_map (fun d => (PDict d, r')) (dict_of_pairs [] kvs)
          | None => None
          end
      | _ => None
      end
  end
with parse_items (fuel : nat) (ts : list token) : option (list pyval * list token) :=
  match fuel with
  | O => None
  | S f =>
      match ts with
      | TRBrack :: r => Some ([], r)
      | _ =>
          match parse_value f ts with
          | Some (v, TComma :: r) =>
              match parse_items f r with
              | Some (vs, r') => Some (v :: vs, r')
              | None => None
              end
          | Some (v, TRBrack :: r) => Some ([v], r)
          | _ => None
          end
      end
  end
with parse_entries (fuel : nat) (ts : list token)
  : option (list (pyval * pyval) * list token) :=
  match fuel with
  | O => None
  | S f =>
      match ts with
      | TRBrace :: r => Some ([], r)
      | _ =>
          match parse_value f ts with
          | Some (k, TColon :: r) =>
              match parse_value f r with
              | Some (v, TComma :: r') =>
                  match parse_entries f r' with
                  | Some (kvs, r'') => Some ((k, v) :: kvs, r'')
                  | None => None
                  end
              | Some (v, TRBrace :: r') => Some ([(k, v)], r')
              | _ => None
              end
          | _ => None
          end
      end
  end.

(** What the model tells about [ast.literal_eval(text)]: the value it
    returns, that it raises, or nothing when the text is outside the
    fragment (Python may read it, as it reads floats, tuples and sets, or
    reject it). *)
Inductive reading : Type :=
| Value (v : pyval)
| Malformed
| Beyond.

(** A string right after a name or a string: there Python may see a
    prefixed, a triple-quoted or a concatenated string where the scanner
    above sees two tokens. *)
Fixpoint joined_strings (ts : list token) : bool :=
  match ts with
  | [] => false
  | t :: rest =>
      match t, rest with
      | (TStr _ | TName _), TStr _ :: _ => true
      | _, _ => joined_strings rest
      end
  end.

Fixpoint balanced (opened : list token) (ts : list token) : bool :=
  match ts with
  | [] => match opened with [] => true | _ => false end
  | TLBrack :: rest => balanced (TLBrack :: opened) rest
  | TLBrace :: rest => balanced (TLBrace :: opened) rest
  | TRBrack :: rest =>
      match opened with
      | TLBrack :: o => balanced o rest
      | _ => false
      end
  | TRBrace :: rest =>
      match opened with
      | TLBrace :: o => balanced o rest
      | _ => false
      end
  | _ :: rest => balanced opened rest
  end.

(** Token sequences no Python expression is made of, or that are an
    expression [ast.literal_eval] refuses: nothing at all, a lone name
    that is not a constant, brackets that do not match. *)
Definition certainly_malformed (ts : list token) : bool :=
  match ts with
  | [] => true
  | [TName _] => true
  | _ => negb (joined_strings ts) && negb (balanced [] ts)
  end.

(** [ast.literal_eval(text)]: leading blanks are stripped, the whole text
    must be one literal. *)
Definition literal_eval (text : string) : reading :=
  match lex LIdle (lstrip text) with
  | Some ts =>
      match parse_value (S (List.length ts)) ts with
      | Some (v, []) => Value v
      | _ => if certainly_malformed ts then Malformed else Beyond
      end
  | None => Beyond
  end.

(** *** Well-formed values

    What a Python object of these types always satisfies: the keys of a
    dict are hashable and pairwise different. *)

Fixpoint keys_distinct (ks : list pyval) : bool :=
  match ks with
  | [] => true
  | k :: rest => negb (existsb (key_eqb k) rest) && keys_distinct rest
  end.

Fixpoint wf (v : pyval) : bool :=
  match v with
  | PList items => forallb wf items
  | PDict entries =>
      forallb (fun kv => hashable (fst kv) && wf (snd kv)) entries
      && keys_distinct (map fst entries)
  | _ => true
  end.

Definition is_str (v : pyval) : bool :=
  match v with
  | PStr _ => true
  | _ => false
  end.

End Python.

(** ** Python literals in full

    The values of the codec as the specification names them: [None],
    booleans, integers, floats, strings of any code points, lists and
    dicts, with [repr], [str] and [ast.literal_eval] on them.  [Python]
    above is the part of this the store operations are stated on: integers
    and strings of code points below 256. *)

Module Literal.
Import Text Float.

(** Text, as its code points. *)
Definition text : Type := list N.

Definition of_string (s : string) : text := map code (list_ascii_of_string s).

Definition ch (c : ascii) : N := code c.

Inductive float : Type :=
| Finite (negative : bool) (n : N)
| Infinite (negative : bool)
| NaN.

Inductive obj : Type :=
| ONone
| OBool (b : bool)
| OInt (z : Z)
| OFloat (x : float)
| OStr (s : text)
| OList (items : list obj)
| ODict (entries : list (obj * obj)).

(** *** [repr] and [str] *)

Definition repr_int (z : Z) : string :=
  (if (z <? 0)%Z then "-" else "") ++ digits_of (Z.abs_N z).

Definition repr_float (x : float) : string :=
  match x with
  | Finite negative n => float_repr negative n
  | Infinite false => "inf"
  | Infinite true => "-inf"
  | NaN => "nan"
  end.

Definition hex_char (d : N) : N := if (d <? 10)%N then (48 + d)%N else (87 + d)%N.

(** [k] hexadecimal digits of [c], the first one first. *)
Fixpoint hex_digits (k : nat) (c : N) : text :=
  match k with
  | O => []
  | S k' => hex_char (c / 16 ^ N.of_nat k') :: hex_digits k' (c mod 16 ^ N.of_nat k')
  end.

Definition is_surrogate (c : N) : bool := (55296 <=? c)%N && (c <=? 57343)%N.

Section Repr.

(** [str.isprintable] on the code points from 127 on, which is a matter
    of the Unicode tables of the interpreter; what follows holds for any
    such table. *)
Variable printable : N -> bool.

Definition escape_char (q c : N) : text :=
  if (c =? q)%N || (c =? 92)%N then [92; c]%N
  else if (c =? 9)%N then of_string "\t"
  else if (c =? 10)%N then of_string "\n"
  else if (c =? 13)%N then of_string "\r"
  else if (c <? 32)%N || (c =? 127)%N then (of_string "\x" ++ hex_digits 2 c)%list
  else if (c <? 127)%N then [c]
  else if printable c && negb (is_surrogate c) then [c]
  else if (c <? 256)%N then (of_string "\x" ++ hex_digits 2 c)%list
  else if (c <? 65536)%N then (of_string "\u" ++ hex_digits 4 c)%list
  else (of_string "\U" ++ hex_digits 8 c)%list.

Definition escape_body (q : N) (s : text) : text := flat_map (escape_char q) s.

(** [repr] prefers single quotes and switches to double quotes only when
    the string has a single quote and no double quote. *)
Definition quote_for (s : text) : N :=
  if existsb (N.eqb 39) s && negb (existsb (N.eqb 34) s) then 34%N else 39%N.

Definition repr_str (s : text) : text :=
  let q := quote_for s in (q :: escape_body q s ++ [q])%list.

(** [sep.join(parts)] *)
Fixpoint join (sep : text) (parts : list text) : text :=
  match parts with
  | [] => []
  | [p] => p
  | p :: rest => (p ++ sep ++ join sep rest)%list
  end.

Fixpoint repr (v : obj) : text :=
  match v with
  | ONone => of_string "None"
  | OBool true => of_string "True"
  | OBool false => of_string "False"
  | OInt z => of_string (repr_int z)
  | OFloat x => of_string (repr_float x)
  | OStr s => repr_str s
  | OList items => (ch "[" :: join (of_string ", ") (map repr items) ++ [ch "]"])%list
  | ODict entries =>
      (ch "{"
         :: join (of_string ", ")
              (map (fun kv => repr (fst kv) ++ of_string ": " ++ repr (snd kv)) entries)
         ++ [ch "}"])%list
  end.

(** [str(v)]: a string is returned as it is, everything else goes through
    [repr]. *)
Definition str (v : obj) : text :=
  match v with
  | OStr s => s
  | _ => repr v
  end.

End Repr.

(** *** [ast.literal_eval]

    As in [Python]: a scanner that reads one code point at a time and a
    recursive-descent parser, on the fragment [repr] writes with the
    freedom the grammar gives inside it.  Numbers with a fraction or an
    exponent are floats, and a string may hold any code point and the
    escapes [\xhh], [\uhhhh] and [\Uhhhhhhhh]. *)

Inductive token : Type :=
| TLBrack | TRBrack | TLBrace | TRBrace | TComma | TColon | TMinus | TPlus
| TInt (n : N)
| TFloat (c : N) (q : Z)
| TStr (s : text)
| TName (s : text).

Inductive lstate : Type :=
| LIdle
| LNum (zero : bool) (v : N)
| LFrac (v : N) (k : N)
| LExp0 (v : N) (k : N)
| LExpS (v : N) (k : N) (negative : bool)
| LExpD (v : N) (k : N) (negative : bool) (x : N)
| LName (cs : text)
| LStr (q : N) (cs : text)
| LEsc (q : N) (cs : text)
| LHex (q : N) (cs : text) (more : nat) (acc : N).

Definition is_digit (c : N) : bool := (48 <=? c)%N && (c <=? 57)%N.

Definition is_ident (c : N) : bool :=
  ((65 <=? c)%N && (c <=? 90)%N) || ((97 <=? c)%N && (c <=? 122)%N) || (c =? 95)%N.

Definition hex_val (c : N) : option N :=
  if is_digit c then Some (c - 48)%N
  else if (97 <=? c)%N && (c <=? 102)%N then Some (c - 87)%N
  else if (65 <=? c)%N && (c <=? 70)%N then Some (c - 55)%N
  else None.

Definition snoc (s : text) (c : N) : text := (s ++ [c])%list.

Definition unescape (c : N) : option N :=
  if (c =? 92)%N then Some 92%N
  else if (c =? 39)%N then Some 39%N
  else if (c =? 34)%N then Some 34%N
  else if (c =? ch "n")%N then Some 10%N
  else if (c =? ch "r")%N then Some 13%N
  else if (c =? ch "t")%N then Some 9%N
  else if (c =? ch "a")%N then Some 7%N
  else if (c =? ch "b")%N then Some 8%N
  else if (c =? ch "f")%N then Some 12%N
  else if (c =? ch "v")%N then Some 11%N
  else None.

Definition idle_step (c : N) : option (lstate * list token) :=
  if (c =? 32)%N || (c =? 9)%N then Some (LIdle, [])
  else if (c =? ch "[")%N then Some (LIdle, [TLBrack])
  else if (c =? ch "]")%N then Some (LIdle, [TRBrack])
  else if (c =? ch "{")%N then Some (LIdle, [TLBrace])
  else if (c =? ch "}")%N then Some (LIdle, [TRBrace])
  else if (c =? ch ",")%N then Some (LIdle, [TComma])
  else if (c =? ch ":")%N then Some (LIdle, [TColon])
  else if (c =? ch "-")%N then Some (LIdle, [TMinus])
  else if (c =? ch "+")%N then Some (LIdle, [TPlus])
  else if (c =? 39)%N || (c =? 34)%N then Some (LStr c [], [])
  else if is_digit c then Some (LNum (c =? 48)%N (c - 48)%N, [])
  else if is_ident c then Some (LName [c], [])
  else None.

(** The token of a number that is complete: an integer has no leading
    zero unless it is zero, a fraction has a digit, an exponent has a
    digit. *)
Definition number_token (st : lstate) : option token :=
  match st with
  | LNum zero v => if zero && negb (v =? 0)%N then None else Some (TInt v)
  | LFrac v k => if (k =? 0)%N then None else Some (TFloat v (- Z.of_N k))
  | LExpD v k negative x =>
      Some (TFloat v ((if negative then - Z.of_N x else Z.of_N x) - Z.of_N k))
  | _ => None
  end.

Definition flush (st : lstate) (c : N) : option (lstate * list token) :=
  if is_ident c || (c =? ch ".")%N then None
  else match number_token st, idle_step c with
       | Some t, Some (st', out) => Some (st', t :: out)
       | _, _ => None
       end.

Definition is_e (c : N) : bool := (c =? ch "e")%N || (c =? ch "E")%N.

Definition step (st : lstate) (c : N) : option (lstate * list token) :=
  match st with
  | LIdle => idle_step c
  | LNum zero v =>
      if is_digit c then Some (LNum zero (10 * v + (c - 48))%N, [])
      else if (c =? ch ".")%N then Some (LFrac v 0, [])
      else if is_e c then Some (LExp0 v 0, [])
      else flush st c
  | LFrac v k =>
      if is_digit c then Some (LFrac (10 * v + (c - 48))%N (k + 1)%N, [])
      else if is_e c && negb (k =? 0)%N then Some (LExp0 v k, [])
      else flush st c
  | LExp0 v k =>
      if is_digit c then Some (LExpD v k false (c - 48)%N, [])
      else if (c =? ch "-")%N then Some (LExpS v k true, [])
      else if (c =? ch "+")%N then Some (LExpS v k false, [])
      else None
  | LExpS v k negative =>
      if is_digit c then Some (LExpD v k negative (c - 48)%N, []) else None
  | LExpD v k negative x =>
      if is_digit c then Some (LExpD v k negative (10 * x + (c - 48))%N, [])
      else flush st c
  | LName cs =>
      if is_ident c || is_digit c then Some (LName (snoc cs c), [])
      else match idle_step c with
           | Some (st', out) => Some (st', TName cs :: out)
           | None => None
           end
  | LStr q cs =>
      if (c =? q)%N then Some (LIdle, [TStr cs])
      else if (c =? 92)%N then Some (LEsc q cs, [])
      else if (c =? 0)%N || (c =? 10)%N || (c =? 13)%N then None
      else if is_surrogate c || (1114112 <=? c)%N then None
      else Some (LStr q (snoc cs c), [])
  | LEsc q cs =>
      match unescape c with
      | Some d => Some (LStr q (snoc cs d), [])
      | None =>
          if (c =? ch "x")%N then Some (LHex q cs 2 0, [])
          else if (c =? ch "u")%N then Some (LHex q cs 4 0, [])
          else if (c =? ch "U")%N then Some (LHex q cs 8 0, [])
          else None
      end
  | LHex q cs more acc =>
      match hex_val c with
      | Some h =>
          match more with
          | S (S k) => Some (LHex q cs (S k) (16 * acc + h)%N, [])
          | _ =>
              if (16 * acc + h <? 1114112)%N
              then Some (LStr q (snoc cs (16 * acc + h)%N), [])
              else None
          end
      | None => None
      end
  end.

Definition finish (st : lstate) : option (list token) :=
  match st with
  | LIdle => Some []
  | LName cs => Some [TName cs]
  | _ => option_map (fun t => [t]) (number_token st)
  end.

Fixpoint lex (st : lstate) (s : text) : option (list token) :=
  match s with
  | [] => finish st
  | c :: s' =>
      match step st c with
      | Some (st', out) => option_map (app out) (lex st' s')
      | None => None
      end
  end.

Fixpoint text_eqb (a b : text) : bool :=
  match a, b with
  | [], [] => true
  | x :: a', y :: b' => (x =? y)%N && text_eqb a' b'
  | _, _ => false
  end.

(** The three names that are constants of the language. *)
Definition constant_of_name (n : text) : option obj :=
  if text_eqb n (of_string "None") then Some ONone
  else if text_eqb n (of_string "True") then Some (OBool true)
  else if text_eqb n (of_string "False") then Some (OBool false)
  else None.

(** Dict keys.  Python compares and hashes [True] as [1], [False] as [0]
    and a float that is a whole number as that number; a NaN is equal to
    nothing; lists and dicts are not hashable. *)
Definition hashable (v : obj) : bool :=
  match v with
  | OList _ | ODict _ => false
  | _ => true
  end.

Inductive keyclass : Type :=
| KNone
| KNum (z : Z)
| KFrac (negative : bool) (n : N)
| KInf (negative : bool)
| KNaN
| KStr (s : text).

(** The whole number a finite float is, if it is one. *)
Definition whole (n : N) : option N :=
  if (0 <=? expo n)%Z then Some (N.shiftl (mant n) (Z.to_N (expo n)))
  else if (mant n mod N.shiftl 1 (Z.to_N (- expo n)) =? 0)%N
       then Some (mant n / N.shiftl 1 (Z.to_N (- expo n)))%N
       else None.

Definition key_class (v : obj) : option keyclass :=
  match v with
  | ONone => Some KNone
  | OBool b => Some (KNum (if b then 1 else 0))
  | OInt z => Some (KNum z)
  | OFloat (Finite negative n) =>
      match whole n with
      | Some w => Some (KNum (if negative then - Z.of_N w else Z.of_N w))
      | None => Some (KFrac negative n)
      end
  | OFloat (Infinite negative) => Some (KInf negative)
  | OFloat NaN => Some KNaN
  | OStr s => Some (KStr s)
  | OList _ | ODict _ => None
  end.

Definition keyclass_eqb (a b : keyclass) : bool :=
  match a, b with
  | KNone, KNone => true
  | KNum x, KNum y => Z.eqb x y
  | KFrac s n, KFrac t m => Bool.eqb s t && N.eqb n m
  | KInf s, KInf t => Bool.eqb s t
  | KStr s, KStr t => text_eqb s t
  | _, _ => false
  end.

Definition key_eqb (a b : obj) : bool :=
  match key_class a, key_class b with
  | Some x, Some y => keyclass_eqb x y
  | _, _ => false
  end.

Definition has_key (k : obj) (d : list (obj * obj)) : bool :=
  existsb (fun kv => key_eqb (fst kv) k) d.

Fixpoint dict_set (d : list (obj * obj)) (k v : obj) : list (obj * obj) :=
  match d with
  | [] => [(k, v)]
  | (k', v') :: rest =>
      if key_eqb k' k then (k', v) :: rest else (k', v') :: dict_set rest k v
  end.

Fixpoint dict_of_pairs (acc : list (obj * obj)) (kvs : list (obj * obj))
  : option (list (obj * obj)) :=
  match kvs with
  | [] => Some acc
  | (k, v) :: rest =>
      if hashable k then dict_of_pairs (dict_set acc k v) rest else None
  end.

(** The float of a literal: the decimal is rounded to the nearest
    double, ties to even, and to infinity beyond the largest. *)
Definition float_of (negative : bool) (c : N) (q : Z) : float :=
  let n := strtod (dec_num c q) (dec_den q) in
  if (n <? top)%N then Finite negative n else Infinite negative.

Fixpoint parse_value (fuel : nat) (ts : list token) : option (obj * list token) :=
  match fuel with
  | O => None
  | S f =>
      match ts with
      | TName n :: r => option_map (fun v => (v, r)) (constant_of_name n)
      | TInt n :: r => Some (OInt (Z.of_N n), r)
      | TMinus :: TInt n :: r => Some (OInt (- Z.of_N n), r)
      | TPlus :: TInt n :: r => Some (OInt (Z.of_N n), r)
      | TFloat c q :: r => Some (OFloat (float_of false c q), r)
      | TMinus :: TFloat c q :: r => Some (OFloat (float_of true c q), r)
      | TPlus :: TFloat c q :: r => Some (OFloat (float_of false c q), r)
      | TStr s :: r => Some (OStr s, r)
      | TLBrack :: r =>
          match parse_items f r with
          | Some (vs, r') => Some (OList vs, r')
          | None => None
          end
      | TLBrace :: r =>
          match parse_entries f r with
          | Some (kvs, r') =>
              option_map (fun d => (ODict d, r')) (dict_of_pairs [] kvs)
          | None => None
          end
      | _ => None
      end
  end
with parse_items (fuel : nat) (ts : list token) : option (list obj * list token) :=
  match fuel with
  | O => None
  | S f =>
      match ts with
      | TRBrack :: r => Some ([], r)
      | _ =>
          match parse_value f ts with
          | Some (v, TComma :: r) =>
              match parse_items f r with
              | Some (vs, r') => Some (v :: vs, r')
              | None => None
              end
          | Some (v, TRBrack :: r) => Some ([v], r)
          | _ => None
          end
      end
  end
with parse_entries (fuel : nat) (ts : list token)
  : option (list (obj * obj) * list token) :=
  match fuel with
  | O => None
  | S f =>
      match ts with
      | TRBrace :: r => Some ([], r)
      | _ =>
          match parse_value f ts with
          | Some (k, TColon :: r) =>
              match parse_value f r with
              | Some (v, TComma :: r') =>
                  match parse_entries f r' with
                  | Some (kvs, r'') => Some ((k, v) :: kvs, r'')
                  | None => None
                  end
              | Some (v, TRBrace :: r') => Some ([(k, v)], r')
              | _ => None
              end
          | _ => None
          end
      end
  end.

(** What the model tells about [ast.literal_eval(text)], as in
    [Python]. *)
Inductive reading : Type :=
| Value (v : obj)
| Malformed
| Beyond.

Fixpoint joined_strings (ts : list token) : bool :=
  match ts with
  | [] => false
  | t :: rest =>
      match t, rest with
      | (TStr _ | TName _), TStr _ :: _ => true
      | _, _ => joined_strings rest
      end
  end.

Fixpoint balanced (opened : list token) (ts : list token) : bool :=
  match ts with
  | [] => match opened with [] => true | _ => false end
  | TLBrack :: rest => balanced (TLBrack :: opened) rest
  | TLBrace :: rest => balanced (TLBrace :: opened) rest
  | TRBrack :: rest =>
      match opened with
      | TLBrack :: o => balanced o rest
      | _ => false
      end
  | TRBrace :: rest =>
      match opened with
      | TLBrace :: o => balanced o rest
      | _ => false
      end
  | _ :: rest => balanced opened rest
  end.

(** A name that is not a constant: as the scanner has no parentheses, it
    stands for a variable or a keyword, which no literal has. *)
Definition other_name (t : token) : bool :=
  match t with
  | TName n => match constant_of_name n with Some _ => false | None => true end
  | _ => false
  end.

(** Token sequences no Python expression is made of, or that are an
    expression [ast.literal_eval] refuses: nothing at all, a name that is
    not a constant, brackets that do not match. *)
Definition certainly_malformed (ts : list token) : bool :=
  match ts with
  | [] => true
  | _ => negb (joined_strings ts) && (existsb other_name ts || negb (balanced [] ts))
  end.

(** [s.lstrip(" \t")] *)
Fixpoint lstrip (s : text) : text :=
  match s with
  | c :: s' => if (c =? 32)%N || (c =? 9)%N then lstrip s' else s
  | [] => []
  end.

Definition literal_eval (t : text) : reading :=
  match lex LIdle (lstrip t) with
  | Some ts =>
      match parse_value (S (List.length ts)) ts with
      | Some (v, []) => Value v
      | _ => if certainly_malformed ts then Malformed else Beyond
      end
  | None => Beyond
  end.

(** *** Well-formed values

    What a Python object of these types always satisfies: a finite float
    is below infinity, a string is made of code points, the keys of a
    dict are hashable and pairwise different. *)

Fixpoint keys_distinct (ks : list obj) : bool :=
  match ks with
  | [] => true
  | k :: rest => negb (existsb (key_eqb k) rest) && keys_distinct rest
  end.

Fixpoint wf (v : obj) : bool :=
  match v with
  | OFloat (Finite _ n) => (n <? top)%N
  | OStr s => forallb (fun c => (c <? 1114112)%N) s
  | OList items => forallb wf items
  | ODict entries =>
      forallb (fun kv => hashable (fst kv) && wf (fst kv) && wf (snd kv)) entries
      && keys_distinct (map fst entries)
  | _ => true
  end.


Definition is_str (v : obj) : bool :=
  match v with
  | OStr _ => true
  | _ => false
  end.

(** The printable code points of Latin-1, and none beyond: one table to
    evaluate [repr] with. *)
Definition latin1_printable (c : N) : bool :=
  (161 <=? c)%N && (c <? 256)%N && negb (c =? 173)%N.

End Literal.

(** ** The sqlite3 engine, as far as the module uses it *)

Module Sqlite.
Import Text Python.

(** What Python hands to a [?] placeholder. *)
Inductive sqlval : Type :=
| SNull
| SInteger (z : Z)
| SText (s : string).

(** Binding a Python value: lists and dicts have no adapter
    ([sqlite3.InterfaceError], an [sqlite3.Error]); an integer outside 64
    bits is an [OverflowError], which is not. *)
Inductive binding : Type :=
| Bound (v : sqlval)
| NotSupported
| TooLarge.

Definition bind (v : pyval) : binding :=
  match v with
  | PNone => Bound SNull
  | PBool b => Bound (SInteger (if b then 1 else 0))
  | PInt z =>
      if ((- 2 ^ 63 <=? z) && (z <? 2 ^ 63))%Z then Bound (SInteger z) else TooLarge
  | PStr s => Bound (SText s)
  | PList _ | PDict _ => NotSupported
  end.

(** A column declared [TEXT] keeps text and turns numbers into text. *)
Definition text_affinity (v : sqlval) : option string :=
  match v with
  | SNull => None
  | SInteger z => Some (repr_int z)
  | SText s => Some s
  end.

(** What a [SELECT] on a [TEXT] column gives back to Python. *)
Definition py_of_text (c : option string) : pyval :=
  match c with
  | Some s => PStr s
  | None => PNone
  end.

(** *** The [version FLOAT] column

    A column declared [FLOAT] has REAL affinity: text that is a numeral is
    stored as a floating point number, any other text is stored as it is.
    A stored number is kept as the text Python prints for it, which tells
    one double from another.  The model evaluates the numerals written as
    digits with an optional fraction, of at most 15 digits and not below
    0.0001.  SQLite (as of 3.40, built with an 80-bit [long double])
    divides the digits by the power of ten in extended precision and
    rounds the quotient a second time when it stores it as a double, so
    the stored number is not always the double nearest to the decimal:
    [3.069577] is read back as [3.0695769999999998].  Of a numeral spelled
    in another way (sign, exponent, surrounding blanks, more digits) the
    model does not tell what is stored. *)
Inductive version_cell : Type :=
| VReal (shown : string)
| VText (s : string).

Fixpoint split_dot (s : string) : string * option string :=
  match s with
  | EmptyString => (EmptyString, None)
  | String c r =>
      if Ascii.eqb c "." then (EmptyString, Some r)
      else let (a, b) := split_dot r in (String c a, b)
  end.

Definition digits_value (s : string) : option N :=
  match s with
  | EmptyString => None
  | _ => option_map N.of_uint (NilEmpty.uint_of_string s)
  end.

Fixpoint strip_zeros (m : N) (k : nat) : N * nat :=
  match k with
  | O => (m, O)
  | S k' => if (m mod 10 =? 0)%N then strip_zeros (m / 10)%N k' else (m, k)
  end.

Definition plain_decimal (text : string) : option (N * nat) :=
  let (w, f) := split_dot text in
  let fr := match f with Some x => x | None => EmptyString end in
  match digits_value w, (match f with Some x => digits_value x | None => Some 0%N end) with
  | Some a, Some b =>
      if Nat.leb (String.length w + String.length fr) 15 then
        let (m, k) := strip_zeros (a * 10 ^ N.of_nat (String.length fr) + b)%N
                                  (String.length fr) in
        if ((m =? 0) || (10 ^ N.of_nat k <=? m * 10000))%N then Some (m, k) else None
      else None
  | _, _ => None
  end.

(** A quotient rounded to the nearest integer, ties to the even one. *)
Definition round_div (n d : N) : N :=
  match (2 * (n mod d) ?= d)%N with
  | Gt => (n / d + 1)%N
  | Eq => if N.even (n / d) then (n / d)%N else (n / d + 1)%N
  | Lt => (n / d)%N
  end.

(** [sqlite3AtoF] on the digits [m] with [k] of them after the point (the
    trailing zeros dropped): the position of the double it makes.  The
    quotient [m / 10 ^ k] is rounded to the 64 bits of a [long double],
    and that to the 53 bits of a double. *)
Definition atof (m : N) (k : nat) : N :=
  if (m =? 0)%N then 0%N
  else
    let d := (10 ^ N.of_nat k)%N in
    let sh0 := (63 + N.log2 d - N.log2 m)%N in
    let sh := if (N.shiftl m sh0 / d <? 2 ^ 63)%N then (sh0 + 1)%N else sh0 in
    let m64 := round_div (N.shiftl m sh) d in
    let m53 := round_div m64 (2 ^ 11) in
    ((1085 - sh) * Float.two52 + m53)%N.

(** [str(x)] for the float [x] stored for the digits. *)
Definition float_str (m : N) (k : nat) : string :=
  Float.float_repr false (atof m k).

(** [str(item[0])] for a value read from the column. *)
Definition version_str (c : version_cell) : string :=
  match c with
  | VReal shown => shown
  | VText s => s
  end.

Definition version_eqb (a b : version_cell) : bool :=
  match a, b with
  | VReal s, VReal t => String.eqb s t
  | VText s, VText t => String.eqb s t
  | _, _ => false
  end.

(** Every numeral has a digit, is made of digits, signs, a dot, an
    exponent mark and blanks, and has at most one dot. *)
Definition numeral_char (c : ascii) : bool :=
  is_digit c
  || Ascii.eqb c "." || Ascii.eqb c "+" || Ascii.eqb c "-"
  || Ascii.eqb c "e" || Ascii.eqb c "E"
  || Ascii.eqb c " " || ((9 <=? code c)%N && (code c <=? 13)%N).

Fixpoint count_char (c : ascii) (s : string) : nat :=
  match s with
  | EmptyString => O
  | String x r => (if Ascii.eqb x c then 1 else 0) + count_char c r
  end.

Fixpoint all_chars (f : ascii -> bool) (s : string) : bool :=
  match s with
  | EmptyString => true
  | String x r => f x && all_chars f r
  end.

Definition may_be_numeral (s : string) : bool :=
  negb (all_chars (fun c => negb (is_digit c)) s)
  && all_chars numeral_char s
  && Nat.leb (count_char "." s) 1.

(** What a text written into the column is stored as; [None] where the
    model does not tell. *)
Definition real_affinity (text : string) : option version_cell :=
  if may_be_numeral text then
    match plain_decimal text with
    | Some (m, k) => Some (VReal (float_str m k))
    | None => None
    end
  else Some (VText text).

(** *** Tables

    [ultrasonics (key TEXT, value TEXT)],
    [plugins (id INTEGER PRIMARY KEY, plugin TEXT, version FLOAT, settings TEXT)],
    [applets (id TEXT PRIMARY KEY, lastrun TEXT, data TEXT)].
    Rows are kept in rowid order; a table that has not been created is
    [None]. *)
Record setting_row : Type := mk_setting { s_key : option string; s_value : option string }.

Record plugin_row : Type := mk_plugin {
  p_id : Z;
  p_plugin : string;
  p_version : version_cell;
  p_settings : option string
}.

Record applet_row : Type := mk_applet {
  a_id : string;
  a_lastrun : option string;
  a_data : option string
}.

Record db : Type := mk_db {
  ultrasonics : option (list setting_row);
  plugins : option (list plugin_row);
  applets : option (list applet_row)
}.

Definition empty_db : db := mk_db None None None.

Definition set_ultrasonics (d : db) (t : option (list setting_row)) : db :=
  mk_db t (plugins d) (applets d).
Definition set_plugins (d : db) (t : option (list plugin_row)) : db :=
  mk_db (ultrasonics d) t (applets d).
Definition set_applets (d : db) (t : option (list applet_row)) : db :=
  mk_db (ultrasonics d) (plugins d) t.

(** [CREATE TABLE IF NOT EXISTS] *)
Definition create_if_absent {A} (t : option (list A)) : option (list A) :=
  match t with
  | None => Some []
  | Some rows => Some rows
  end.

Definition key_is (k : string) (r : setting_row) : bool :=
  match s_key r with
  | Some s => String.eqb s k
  | None => false
  end.

(** [SELECT value FROM ultrasonics WHERE key = k] *)
Definition select_value (k : string) (rows : list setting_row) : list (option string) :=
  map s_value (filter (key_is k) rows).

(** [UPDATE ultrasonics SET value = v WHERE key = k] *)
Definition update_value (k : option string) (v : option string) (rows : list setting_row)
  : list setting_row :=
  match k with
  | Some key =>
      map (fun r => if key_is key r then mk_setting (s_key r) v else r) rows
  | None => rows
  end.

(** [executemany] stops at the first row it cannot bind. *)
Inductive status : Type :=
| Ok
| Failed
| Overflowed.

Definition bind_pair (p : pyval * pyval) : binding * binding := (bind (fst p), bind (snd p)).

(** [INSERT INTO ultrasonics (key, value) VALUES(?, ?)] over a sequence *)
Fixpoint insert_settings (rows : list setting_row) (params : list (pyval * pyval))
  : list setting_row * status :=
  match params with
  | [] => (rows, Ok)
  | p :: rest =>
      match bind (fst p), bind (snd p) with
      | Bound k, Bound v =>
          insert_settings (rows ++ [mk_setting (text_affinity k) (text_affinity v)]) rest
      | TooLarge, _ => (rows, Overflowed)
      | NotSupported, _ => (rows, Failed)
      | Bound _, TooLarge => (rows, Overflowed)
      | Bound _, NotSupported => (rows, Failed)
      end
  end.

(** [UPDATE ultrasonics SET value = ? WHERE key = ?] over a sequence; the
    first element of each tuple is the value, the second the key. *)
Fixpoint update_settings (rows : list setting_row) (params : list (pyval * pyval))
  : list setting_row * status :=
  match params with
  | [] => (rows, Ok)
  | p :: rest =>
      match bind (fst p), bind (snd p) with
      | Bound v, Bound k =>
          update_settings (update_value (text_affinity k) (text_affinity v) rows) rest
      | TooLarge, _ => (rows, Overflowed)
      | NotSupported, _ => (rows, Failed)
      | Bound _, TooLarge => (rows, Overflowed)
      | Bound _, NotSupported => (rows, Failed)
      end
  end.

(** The rowid given to a new row: one more than the largest in use. *)
Definition next_id (rows : list plugin_row) : Z :=
  (fold_right Z.max 0 (map p_id rows) + 1)%Z.

(** [plugin = ? AND version = ?], the version being compared as the
    column would store it. *)
Definition plugin_matches (name : string) (version : version_cell) (r : plugin_row) : bool :=
  String.eqb (p_plugin r) name && version_eqb (p_version r) version.

Definition applet_is (applet_id : string) (r : applet_row) : bool :=
  String.eqb (a_id r) applet_id.

(** [REPLACE INTO applets(id, data)]: the row holding the key is deleted
    and a new row is inserted; the column that is not named gets its
    default, [NULL]. *)
Definition replace_applet (applet_id data : string) (rows : list applet_row)
  : list applet_row :=
  filter (fun r => negb (applet_is applet_id r)) rows
    ++ [mk_applet applet_id None (Some data)].

End Sqlite.

(** ** database.py *)

Module Database.
Import Text Python Sqlite.

(** How a call ends: it returns a value, or an [sqlite3.Error] was caught
    by the function's [except] clause (the message is logged and the
    function falls off its end), or another exception leaves the
    function.  [NotModelled] is the end of a call of which the model
    does not tell: [ast.literal_eval] was handed a text outside the
    fragment, or a version numeral outside the ones evaluated was written
    or looked for. *)
Inductive outcome : Type :=
| Returns (v : pyval)
| Caught (msg : string)
| Raises (e : exn)
| NotModelled.

(** The value the caller gets, when the call is known to return. *)
Definition returned (o : outcome) : option pyval :=
  match o with
  | Returns v => Some v
  | Caught _ => Some PNone
  | Raises _ | NotModelled => None
  end.

(** The end of a call on what [ast.literal_eval] makes of a text. *)
Definition decoded (r : reading) : outcome :=
  match r with
  | Value v => Returns v
  | Malformed => Raises LiteralError
  | Beyond => NotModelled
  end.

(** The module constant [global_settings]; characters outside Latin-1
    stand as their UTF-8 bytes. *)
Definition global_settings : list dict :=
  [ [ (PStr "type", PStr "string");
      (PStr "value", PStr "Many plugins utilise third party apis, which often require sensitive api keys 🔑 to access (Spotify, last.fm, Deezer, etc). The ultrasonics-api program acts as a proxy server for these apis, while keeping secret api keys... secret.") ];
    [ (PStr "type", PStr "string");
      (PStr "value", PStr "You can host this yourself alongside ultrasonics, and set up all the required api keys for the services you want to use. Alternatively, use the official hosted server for faster setup.") ];
    [ (PStr "type", PStr "string");
      (PStr "value", PStr "If you don't need / want to use any of these services, just leave the url empty 😊.") ];
    [ (PStr "type", PStr "link");
      (PStr "value", PStr "https://github.com/XDGFX/ultrasonics-api") ];
    [ (PStr "type", PStr "text");
      (PStr "label", PStr "ultrasonics-api URL");
      (PStr "name", PStr "api_url");
      (PStr "value", PStr "https://ultrasonics-api.herokuapp.com/api/") ] ].

(** [t in ["text", "radio", "select"]] *)
Definition is_setting_type (t : pyval) : bool :=
  key_eqb (PStr "text") t || key_eqb (PStr "radio") t || key_eqb (PStr "select") t.

(** [[(item["name"], item["value"]) for item in gs if item["type"] in
    ["text", "radio", "select"]]]; [None] is a [KeyError]. *)
Fixpoint global_settings_database (gs : list dict) : option (list (pyval * pyval)) :=
  match gs with
  | [] => Some []
  | item :: rest =>
      match dict_get item (PStr "type") with
      | None => None
      | Some t =>
          if is_setting_type t then
            match dict_get item (PStr "name"), dict_get item (PStr "value") with
            | Some n, Some v =>
                option_map (cons (n, v)) (global_settings_database rest)
            | _, _ => None
            end
          else global_settings_database rest
      end
  end.

(** [[item["name"] for item in data if item["type"] in [...]]] *)
Fixpoint db_compatible_settings (data : list dict) : option (list pyval) :=
  match data with
  | [] => Some []
  | item :: rest =>
      match dict_get item (PStr "type") with
      | None => None
      | Some t =>
          if is_setting_type t then
            match dict_get item (PStr "name") with
            | Some n => option_map (cons n) (db_compatible_settings rest)
            | None => None
            end
          else db_compatible_settings rest
      end
  end.

(** *** General *)

Definition new_install (update : bool) (d : db) : db * outcome :=
  if update then
    match ultrasonics d with
    | Some rows =>
        (set_ultrasonics d
           (Some (update_value (Some "new_install") (text_affinity (SInteger 0)) rows)),
         Returns PNone)
    | None => (d, Caught "Error while updating database entry")
    end
  else
    match ultrasonics d with
    | None => (d, Returns PNone)
    | Some rows =>
        match select_value "new_install" rows with
        | [] => (d, Raises IndexError)
        | v :: _ => (d, Returns (PBool (key_eqb (py_of_text v) (PStr "1"))))
        end
    end.

(** The version check at the end of [connect]. *)
Definition version_check (_ultrasonics : dict) (d : db) : outcome :=
  match ultrasonics d with
  | None => Caught "Error while creating tables"
  | Some rows =>
      match select_value "version" rows with
      | [] => Raises IndexError
      | _ :: _ =>
          match dict_get _ultrasonics (PStr "version") with
          | None => Raises KeyError
          | Some _ => Returns PNone
          end
      end
  end.

(** The tables [plugins] and [applets], the commit and the version
    check. *)
Definition connect_tables (_ultrasonics : dict) (d : db) : db * outcome :=
  let d1 := set_plugins d (create_if_absent (plugins d)) in
  let d2 := set_applets d1 (create_if_absent (applets d1)) in
  (d2, version_check _ultrasonics d2).

(** [connect()].  The dict [_ultrasonics] of [app] is shared with the
    caller, so the entry written into it is returned as well.  An
    exception that leaves the [with] block rolls the open transaction
    back: rows inserted so far are lost, the table created before the
    first [INSERT] stays. *)
Definition connect (gs : list dict) (_ultrasonics : dict) (d : db)
  : db * dict * outcome :=
  match new_install false d with
  | (_, Raises e) => (d, _ultrasonics, Raises e)
  | (_, o) =>
      match returned o with
      | Some PNone =>
          let meta := dict_set _ultrasonics (PStr "new_install") (PBool true) in
          match global_settings_database gs with
          | None => (d, meta, Raises KeyError)
          | Some defaults =>
              let created := set_ultrasonics d (create_if_absent (ultrasonics d)) in
              let rows0 := match ultrasonics created with Some r => r | None => [] end in
              match insert_settings rows0 meta with
              | (_, Overflowed) => (created, meta, Raises OverflowError)
              | (rows1, Failed) =>
                  (set_ultrasonics created (Some rows1), meta,
                   Caught "Error while creating tables")
              | (rows1, Ok) =>
                  match insert_settings rows1 defaults with
                  | (_, Overflowed) => (created, meta, Raises OverflowError)
                  | (rows2, Failed) =>
                      (set_ultrasonics created (Some rows2), meta,
                       Caught "Error while creating tables")
                  | (rows2, Ok) =>
                      let (d', o') :=
                        connect_tables meta (set_ultrasonics created (Some rows2)) in
                      (d', meta, o')
                  end
              end
          end
      | _ =>
          let (d', o') := connect_tables _ultrasonics d in
          (d', _ultrasonics, o')
      end
  end.

(** [for key, value in rows: data[key] = value] *)
Definition raw_settings (rows : list setting_row) : dict :=
  fold_left (fun data r => dict_set data (py_of_text (s_key r)) (py_of_text (s_value r)))
            rows [].

(** The body of the inner loop: an item that has a ["name"] equal to the
    key takes the stored value. *)
Definition overwrite (key value : pyval) (item : dict) : dict :=
  match dict_get item (PStr "name") with
  | Some n => if key_eqb n key then dict_set item (PStr "value") value else item
  | None => item
  end.

Definition merge_row (names : list pyval) (data : list dict) (r : setting_row)
  : list dict :=
  let key := py_of_text (s_key r) in
  if existsb (fun n => key_eqb n key) names
  then map (overwrite key (py_of_text (s_value r))) data
  else data.

Definition global_settings_load (gs : list dict) (raw : bool) (d : db) : outcome :=
  match ultrasonics d with
  | None => Caught "Error while loading applets from database"
  | Some rows =>
      if raw then Returns (PDict (raw_settings rows))
      else
        match db_compatible_settings gs with
        | None => Raises KeyError
        | Some names => Returns (PList (map PDict (fold_left (merge_row names) rows gs)))
        end
  end.

Definition global_settings_save (settings : list (pyval * pyval)) (d : db)
  : db * outcome :=
  match ultrasonics d with
  | None => (d, Caught "Error while updating settings database")
  | Some rows =>
      match update_settings rows settings with
      | (rows', Ok) => (set_ultrasonics d (Some rows'), Returns PNone)
      | (rows', Failed) =>
          (set_ultrasonics d (Some rows'), Caught "Error while updating settings database")
      | (_, Overflowed) => (d, Raises OverflowError)
      end
  end.

(** *** Plugins *)

Definition plugin_create_entry (name version : string) (d : db) : db * outcome :=
  match plugins d with
  | None => (d, Caught "Error while creating database entry")
  | Some rows =>
      match real_affinity version with
      | Some stored =>
          (set_plugins d (Some (rows ++ [mk_plugin (next_id rows) name stored None])%list),
           Returns PNone)
      | None => (d, NotModelled)
      end
  end.

Definition plugin_update_entry (name version : string) (settings : pyval) (d : db)
  : db * outcome :=
  match plugins d with
  | None => (d, Caught "Error while updating database entry")
  | Some rows =>
      match real_affinity version with
      | Some sought =>
          (set_plugins d
             (Some (map (fun r =>
                           if plugin_matches name sought r
                           then mk_plugin (p_id r) (p_plugin r) (p_version r)
                                          (Some (str settings))
                           else r) rows)),
           Returns PNone)
      | None => (d, NotModelled)
      end
  end.

Definition plugin_entry_exists (name : string) (d : db) : outcome :=
  match plugins d with
  | None => Caught "Error while checking for plugin entry"
  | Some table =>
      let rows := map p_version (filter (fun r => String.eqb (p_plugin r) name) table) in
      if Nat.ltb 0 (List.length rows)
      then Returns (PList (map (fun item => PStr (version_str item)) rows))
      else Returns (PList [PBool false])
  end.

Definition plugin_load_entry (name version : string) (d : db) : outcome :=
  match plugins d with
  | None => Caught "Error while loading plugin database entry"
  | Some table =>
      match real_affinity version with
      | Some sought =>
          match map p_settings (filter (plugin_matches name sought) table) with
          | [] => Raises IndexError
          | None :: _ => Returns PNone
          | Some settings :: _ => decoded (literal_eval settings)
          end
      | None => NotModelled
      end
  end.

(** *** Applets *)

(** [ast.literal_eval] on a cell: a [NULL] cell reaches it as [None],
    which it refuses. *)
Definition eval_cell (c : option string) : reading :=
  match c with
  | Some text => literal_eval text
  | None => Malformed
  end.

(** The loop of [applet_gather], [data] being the list built so far.  In
    each dict the plans are evaluated before the last run. *)
Fixpoint gather_rows (rows : list applet_row) (data : list pyval) : outcome :=
  match rows with
  | [] => Returns (PList data)
  | r :: rest =>
      match a_lastrun r with
      | None =>
          match eval_cell (a_data r) with
          | Value plans =>
              gather_rows rest
                (data ++ [PDict [(PStr "applet_id", PStr (a_id r));
                                 (PStr "applet_plans", plans)]])%list
          | other => decoded other
          end
      | Some applet_lastrun =>
          match eval_cell (a_data r) with
          | Value plans =>
              match literal_eval applet_lastrun with
              | Value lastrun =>
                  gather_rows rest
                    (data ++ [PDict [(PStr "applet_id", PStr (a_id r));
                                     (PStr "applet_plans", plans);
                                     (PStr "applet_lastrun", lastrun)]])%list
              | other => decoded other
              end
          | other => decoded other
          end
      end
  end.

(** [applet_gather()]; [fetchall()] gives a list, so the test
    [rows == None] never holds. *)
Definition applet_gather (d : db) : outcome :=
  match applets d with
  | None => Caught "Error while loading applets from database"
  | Some rows => gather_rows rows []
  end.

Definition applet_create_entry (applet_id : string) (data : pyval) (d : db)
  : db * outcome :=
  match applets d with
  | None => (d, Caught "Error while creating database entry")
  | Some rows =>
      (set_applets d (Some (replace_applet applet_id (str data) rows)), Returns PNone)
  end.

Definition applet_load_entry (applet_id : string) (d : db) : outcome :=
  match applets d with
  | None => Caught "Error while loading applet database entry"
  | Some table =>
      match map a_data (filter (applet_is applet_id) table) with
      | [] => Returns PNone
      | None :: _ => Raises LiteralError
      | Some text :: _ => decoded (literal_eval text)
      end
  end.

Definition applet_delete_entry (applet_id : string) (d : db) : db * outcome :=
  match applets d with
  | None => (d, Caught "Error while attempting to delete applet database entry")
  | Some rows =>
      (set_applets d (Some (filter (fun r => negb (applet_is applet_id r)) rows)),
       Returns PNone)
  end.

Definition applet_update_lastrun (applet_id : string) (data : pyval) (d : db)
  : db * outcome :=
  match applets d with
  | None => (d, Caught "Error while updating database entry")
  | Some rows =>
      (set_applets d
         (Some (map (fun r =>
                       if applet_is applet_id r
                       then mk_applet (a_id r) (Some (str data)) (a_data r)
                       else r) rows)),
       Returns PNone)
  end.

(** The [lastrun] column as stored for an id. *)
Definition stored_lastrun (applet_id : string) (d : db) : list (option string) :=
  match applets d with
  | None => []
  | Some rows => map a_lastrun (filter (applet_is applet_id) rows)
  end.

(** *** The reading operations over any decoder

    [literal_eval] above tells what [ast.literal_eval] does on a part of
    the texts only.  What the reading operations do with a text depends
    on the decoder's verdict alone, so they are given once more with the
    decoder as a parameter: a statement made for every [decode] holds for
    [ast.literal_eval] itself, on every text.  With [literal_eval] for
    [decode] they are the definitions above. *)
Section Decoder.
Variable decode : string -> reading.

Definition plugin_load_entry_with (name version : string) (d : db) : outcome :=
  match plugins d with
  | None => Caught "Error while loading plugin database entry"
  | Some table =>
      match real_affinity version with
      | Some sought =>
          match map p_settings (filter (plugin_matches name sought) table) with
          | [] => Raises IndexError
          | None :: _ => Returns PNone
          | Some settings :: _ => decoded (decode settings)
          end
      | None => NotModelled
      end
  end.

Definition eval_cell_with (c : option string) : reading :=
  match c with
  | Some text => decode text
  | None => Malformed
  end.

Fixpoint gather_rows_with (rows : list applet_row) (data : list pyval) : outcome :=
  match rows with
  | [] => Returns (PList data)
  | r :: rest =>
      match a_lastrun r with
      | None =>
          match eval_cell_with (a_data r) with
          | Value plans =>
              gather_rows_with rest
                (data ++ [PDict [(PStr "applet_id", PStr (a_id r));
                                 (PStr "applet_plans", plans)]])%list
          | other => decoded other
          end
      | Some applet_lastrun =>
          match eval_cell_with (a_data r) with
          | Value plans =>
              match decode applet_lastrun with
              | Value lastrun =>
                  gather_rows_with rest
                    (data ++ [PDict [(PStr "applet_id", PStr (a_id r));
                                     (PStr "applet_plans", plans);
                                     (PStr "applet_lastrun", lastrun)]])%list
              | other => decoded other
              end
          | other => decoded other
          end
      end
  end.

Definition applet_gather_with (d : db) : outcome :=
  match applets d with
  | None => Caught "Error while loading applets from database"
  | Some rows => gather_rows_with rows []
  end.

Definition applet_load_entry_with (applet_id : string) (d : db) : outcome :=
  match applets d with
  | None => Caught "Error while loading applet database entry"
  | Some table =>
      match map a_data (filter (applet_is applet_id) table) with
      | [] => Returns PNone
      | None :: _ => Raises LiteralError
      | Some text :: _ => decoded (decode text)
      end
  end.

End Decoder.

End Database.

(** ** The tokens of a value, and what the scanner and the parser are
    to do with them *)

Module CodecView.
Import Text Python.

(** Induction over values that reaches inside lists and dicts. *)
Section PyvalInd.
Variable P : pyval -> Prop.
Hypothesis HNone : P PNone.
Hypothesis HBool : forall b, P (PBool b).
Hypothesis HInt : forall z, P (PInt z).
Hypothesis HStr : forall s, P (PStr s).
Hypothesis HList : forall items, Forall P items -> P (PList items).
Hypothesis HDict : forall entries,
    Forall (fun kv => P (fst kv) /\ P (snd kv)) entries -> P (PDict entries).

End PyvalInd.







End CodecView.

(** ** Observations on the store *)

Module Observe.
Import Text Python Sqlite Database.

Definition has_applet (applet_id : string) (d : db) : bool :=
  match applets d with
  | Some rows => existsb (applet_is applet_id) rows
  | None => false
  end.


Definition named (name : string) (r : plugin_row) : bool := String.eqb (p_plugin r) name.

Definition stored_versions (name : string) (rows : list plugin_row) : list string :=
  map version_str (map p_version (filter (named name) rows)).

Definition create2 (name v1 v2 : string) (d : db) : db :=
  fst (plugin_create_entry name v2 (fst (plugin_create_entry name v1 d))).

Definition bindable (v : pyval) : bool :=
  match bind v with
  | Bound _ => true
  | _ => false
  end.

Definition all_bindable (l : list (pyval * pyval)) : bool :=
  forallb (fun p => bindable (fst p) && bindable (snd p)) l.

(** The text a bound value leaves in a [TEXT] column. *)
Definition cell_of (v : pyval) : option string :=
  match bind v with
  | Bound x => text_affinity x
  | _ => None
  end.

Definition row_of (p : pyval * pyval) : setting_row :=
  mk_setting (cell_of (fst p)) (cell_of (snd p)).

Definition connect_db (gs : list dict) (meta : dict) (d : db) : db :=
  fst (fst (connect gs meta d)).

Definition connect_meta (gs : list dict) (meta : dict) (d : db) : dict :=
  snd (fst (connect gs meta d)).

Definition seeded (gs : list dict) (meta : dict) (d : db) : db := connect_db gs meta d.

Definition marked (d : db) : db := fst (new_install true d).

End Observe.

(** ** The settings view in the words of the specification *)

Module SettingsSpec.
Import Text Python Sqlite Database.

(** The stored value for a key: that of the row holding the key, the
    last one if several rows hold it. *)
Fixpoint spec_stored (rows : list setting_row) (key : pyval) : option pyval :=
  match rows with
  | [] => None
  | r :: rest =>
      match spec_stored rest key with
      | Some v => Some v
      | None =>
          if key_eqb key (py_of_text (s_key r)) then Some (py_of_text (s_value r))
          else None
      end
  end.

Definition spec_configurable (item : dict) : bool :=
  match dict_get item (PStr "type") with
  | Some t => is_setting_type t
  | None => false
  end.

Definition name_of (item : dict) : option pyval := dict_get item (PStr "name").

(** A configurable descriptor takes the stored value for its name and
    keeps its default when there is none; a display descriptor is left
    as it is. *)
Definition spec_merge (rows : list setting_row) (item : dict) : dict :=
  if spec_configurable item then
    match name_of item with
    | Some n =>
        match spec_stored rows n with
        | Some v => dict_set item (PStr "value") v
        | None => item
        end
    | None => item
    end
  else item.

Definition spec_load (rows : list setting_row) (gs : list dict) : list dict :=
  map (spec_merge rows) gs.

(** A schema of the shape the data model gives it: every descriptor has a
    ["type"], and it has a ["name"] exactly when it is configurable. *)
Definition item_ok (item : dict) : bool :=
  match dict_get item (PStr "type") with
  | Some t =>
      Bool.eqb (is_setting_type t)
               (match name_of item with Some _ => true | None => false end)
  | None => false
  end.

Definition schema_ok (gs : list dict) : bool := forallb item_ok gs.

End SettingsSpec.

(** ** Sample data *)

Module Samples.
Import Text Python Sqlite Database Observe.

Definition planA : pyval := PDict [(PStr "steps", PList [PStr "spotify"])].
Definition planB : pyval := PDict [(PStr "steps", PList [PStr "spotify"; PStr "deezer"])].
Definition outcomeX : pyval := PDict [(PStr "ok", PBool true)].
Definition fresh : db := mk_db (Some []) (Some []) (Some []).

Definition with_a1 : db := fst (applet_create_entry "a1" planA fresh).

Definition sample_plan : pyval :=
  PDict [ (PStr "name", PStr (String "034" "it's mine"));
          (PStr "steps",
           PList [ PDict [(PStr "plugin", PStr "spotify"); (PStr "version", PStr "1.0");
                          (PStr "limit", PInt (-25)); (PStr "on", PBool true)];
                   PList []; PNone ]);
          (PInt 7, PDict []) ].

Definition with_text (text : string) : db :=
  mk_db (Some [])
        (Some [mk_plugin 1 "spotify" (VReal "1.0") (Some text)])
        (Some [mk_applet "a1" None (Some text)]).

Definition registry : db := mk_db (Some []) (Some []) (Some []).

Definition process_metadata : dict := [(PStr "version", PStr "1.0.0")].

(** The store after [global_settings_save([("https://custom/", "api_url")])]. *)
Definition customised : db :=
  fst (global_settings_save [(PStr "https://custom/", PStr "api_url")]
         (seeded global_settings process_metadata empty_db)).

End Samples.

(** ** What the further statements are worded with *)

Module Listing.
Import Text Python Sqlite Database Observe SettingsSpec.

(** An applet as the caller knows it: id, plans, last run if any. *)
Definition entry : Type := (string * pyval * option pyval)%type.



(** The row [applet_create_entry] and [applet_update_lastrun] leave for
    an entry. *)
Definition row_of_entry (e : entry) : applet_row :=
  let '(applet_id, plans, lastrun) := e in
  mk_applet applet_id (option_map str lastrun) (Some (str plans)).

(** The dict [applet_gather] makes of it. *)
Definition listed (e : entry) : pyval :=
  let '(applet_id, plans, lastrun) := e in
  match lastrun with
  | None => PDict [(PStr "applet_id", PStr applet_id); (PStr "applet_plans", plans)]
  | Some l =>
      PDict [(PStr "applet_id", PStr applet_id); (PStr "applet_plans", plans);
             (PStr "applet_lastrun", l)]
  end.

(** The dict of one row, if both cells decode. *)
Definition row_view (r : applet_row) : reading :=
  match eval_cell (a_data r) with
  | Value plans =>
      match a_lastrun r with
      | None =>
          Value (PDict [(PStr "applet_id", PStr (a_id r)); (PStr "applet_plans", plans)])
      | Some t =>
          match literal_eval t with
          | Value lastrun =>
              Value (PDict [(PStr "applet_id", PStr (a_id r));
                            (PStr "applet_plans", plans);
                            (PStr "applet_lastrun", lastrun)])
          | other => other
          end
      end
  | other => other
  end.

Fixpoint views (rows : list applet_row) : option (list pyval) :=
  match rows with
  | [] => Some []
  | r :: rest =>
      match row_view r, views rest with
      | Value v, Some vs => Some (v :: vs)
      | _, _ => None
      end
  end.

(** A listed dict is that of the applet with this id. *)
Definition listed_as (applet_id : string) (v : pyval) : bool :=
  match v with
  | PDict ((_, PStr i) :: _) => String.eqb i applet_id
  | _ => false
  end.


Definition two_entries : list entry :=
  [("a1", Samples.planA, Some Samples.outcomeX); ("a2", Samples.planB, None)].

(** No string occurs twice. *)
Fixpoint distinct (l : list string) : bool :=
  match l with
  | [] => true
  | x :: rest => negb (existsb (String.eqb x) rest) && distinct rest
  end.

Definition applet_ids (d : db) : list string :=
  match applets d with
  | Some rows => map a_id rows
  | None => []
  end.

(** The rows of a table; a table that has not been created has none. *)
Definition rows_of {A} (t : option (list A)) : list A :=
  match t with
  | Some rows => rows
  | None => []
  end.

Definition setting_keys (d : db) : list (option string) :=
  match ultrasonics d with
  | Some rows => map s_key rows
  | None => []
  end.

(** Which of the three tables have been created. *)
Definition tables (d : db) : bool * bool * bool :=
  (match ultrasonics d with Some _ => true | None => false end,
   match plugins d with Some _ => true | None => false end,
   match applets d with Some _ => true | None => false end).

Definition has_plugin (name : string) (version : version_cell) (d : db) : bool :=
  match plugins d with
  | Some rows => existsb (plugin_matches name version) rows
  | None => false
  end.

Definition has_setting (key : string) (d : db) : bool :=
  match ultrasonics d with
  | Some rows => existsb (key_is key) rows
  | None => false
  end.

(** A descriptor after a value has been saved under a key: it carries
    the value if it is configurable and named by the key, and is as the
    load made it before otherwise. *)
Definition resaved (key value : string) (rows : list setting_row) (item : dict) : dict :=
  match SettingsSpec.name_of item with
  | Some n =>
      if key_eqb n (PStr key)
      then dict_set item (PStr "value") (PStr value)
      else SettingsSpec.spec_merge rows item
  | None => SettingsSpec.spec_merge rows item
  end.

(** Metadata with an integer sqlite3 cannot hold. *)
Definition oversized_metadata : dict :=
  [(PStr "version", PStr "1.0.0"); (PStr "build", PInt (2 ^ 63))].

(** A decoder that is known to reject one more text than [literal_eval]
    tells. *)
Definition rejecting (bad : string) (text : string) : reading :=
  if String.eqb text bad then Malformed else literal_eval text.

(** A row [applet_gather] cannot list: the decoder rejects its [data],
    or reads its [data] and rejects its [lastrun]. *)
Definition row_rejected (decode : string -> reading) (r : applet_row) : bool :=
  match eval_cell_with decode (a_data r), a_lastrun r with
  | Malformed, _ => true
  | Value _, Some t => match decode t with Malformed => true | _ => false end
  | _, _ => false
  end.

(** What [executemany] does with one tuple. *)
Definition bind_status (p : pyval * pyval) : status :=
  match bind (fst p), bind (snd p) with
  | Bound _, Bound _ => Ok
  | TooLarge, _ => Overflowed
  | NotSupported, _ => Failed
  | Bound _, TooLarge => Overflowed
  | Bound _, NotSupported => Failed
  end.

(** The stored values for a key, in row order. *)
Definition stored_values (key : string) (d : db) : list (option string) :=
  match ultrasonics d with
  | Some rows => select_value key rows
  | None => []
  end.

End Listing.

(** ** What the facts about floats are worded with *)

Module FloatView.
Import Text Float.

(** The exponent field of a position, 1 for the subnormal ones: the
    midpoint above the position is [smid n / 2 ^ 1076]. *)
Definition ebits (n : N) : N := if (n <? two52)%N then 1%N else (n / two52)%N.


End FloatView.

(** ** What the facts about literals are worded with *)

Module LiteralView.
Import Text Float Literal FloatView.

Section ObjInd.
Variable P : obj -> Prop.
Hypothesis HNone : P ONone.
Hypothesis HBool : forall b, P (OBool b).
Hypothesis HInt : forall z, P (OInt z).
Hypothesis HFloat : forall x, P (OFloat x).
Hypothesis HStr : forall s, P (OStr s).
Hypothesis HList : forall items, Forall P items -> P (OList items).
Hypothesis HDict : forall entries,
    Forall (fun kv => P (fst kv) /\ P (snd kv)) entries -> P (ODict entries).

End ObjInd.









(** Settings with a float, text beyond ASCII and a nested list: in
    Python [{'name': 'caf\xe9\u2028', 'ratio': 0.1, 'steps': [-3,
    -1.5e+300, True, None, 'it\'s'], 2.5: {}}]. *)
Definition sample_settings : obj :=
  ODict [(OStr (of_string "name"), OStr [99; 97; 102; 233; 8232]%N);
         (OStr (of_string "ratio"), OFloat (Finite false 4591870180066957722));
         (OStr (of_string "steps"),
          OList [OInt (-3); OFloat (Finite true 9097811302482466869);
                 OBool true; ONone; OStr (of_string "it's")]);
         (OFloat (Finite false 4612811918334230528), ODict [])].

(** A value of [Python] among the values of [Literal]. *)
Fixpoint of_pyval (v : Python.pyval) : obj :=
  match v with
  | Python.PNone => ONone
  | Python.PBool b => OBool b
  | Python.PInt z => OInt z
  | Python.PStr s => OStr (of_string s)
  | Python.PList items => OList (map of_pyval items)
  | Python.PDict entries =>
      ODict (map (fun kv => (of_pyval (fst kv), of_pyval (snd kv))) entries)
  end.

End LiteralView.

(** * Facts about the codec *)

Module CodecFacts.
Import Text Python CodecView.





















(** The parser on the tokens of a value. *)














End CodecFacts.

(** * Facts about floats

    [repr] of a float is read back as that float: the digits
    [float_repr] writes are those of a decimal that rounds to it. *)

Module FloatFacts.
Import Text Float FloatView.
Local Open Scope N_scope.

(** *** Positions and midpoints *)




Lemma expo_ebits n : Z.to_N (expo n + 1075) = ebits n.
Proof.
  unfold expo, ebits. destruct (n <? two52) eqn:E; [reflexivity|].
  apply N.ltb_ge in E. replace (Z.of_N (n / two52) - 1075 + 1075)%Z with (Z.of_N (n / two52)) by lia.
  apply N2Z.id.
Qed.





















(** *** The digits of [repr] *)

















(** *** Digits *)


















Lemma length_take d : forall s, (d <= String.length s)%nat -> String.length (take d s) = d.
Proof.
  induction d as [|d IH]; intros s H; destruct s as [|c s]; simpl in *; try reflexivity.
  - lia.
  - rewrite IH; [reflexivity | lia].
Qed.




End FloatFacts.

(** * Facts about literals in full *)

Module LiteralFacts.
Import Text Float Literal FloatView FloatFacts LiteralView.
Local Open Scope N_scope.

(** *** Numbers *)




(** Characters *)



Lemma text_digit c : Text.is_digit c = true -> is_digit (code c) = true.
Proof. intro H. exact H. Qed.






























(** *** Strings *)








Lemma surrogate_range c : is_surrogate c = true -> 55296 <= c <= 57343.
Proof.
  unfold is_surrogate. intro H. apply andb_true_iff in H as [H1 H2].
  apply N.leb_le in H1. apply N.leb_le in H2. lia.
Qed.







(** *** Names and integers *)









(** *** Lists and dicts *)







(** *** The parser on the tokens of a value *)














(** *** The round trip *)

(** On the sample values of the store both codecs write the same text
    and read the same value. *)
Lemma codecs_agree_on_samples :
  Forall (fun v => str latin1_printable (of_pyval v) = of_string (Python.str v)
                   /\ literal_eval (of_string (Python.str v)) = Value (of_pyval v)
                   /\ Python.literal_eval (Python.str v) = Python.Value v)
    [Samples.planA; Samples.planB; Samples.outcomeX; Samples.sample_plan;
     Python.PList [Python.PInt (-12); Python.PNone; Python.PStr "it's"]].
Proof. repeat constructor; vm_compute; reflexivity. Qed.

(** The text [str] writes for the sample settings, as Python prints it. *)
Lemma sample_settings_text :
  str latin1_printable sample_settings
  = (of_string "{'name': 'caf" ++ [233]
       ++ of_string "\u2028', 'ratio': 0.1, 'steps': [-3, -1.5e+300, True, None, "
       ++ [34] ++ of_string "it's" ++ [34] ++ of_string "], 2.5: {}}")%list.
Proof. vm_compute. reflexivity. Qed.




End LiteralFacts.

(** * Facts about the applet store *)

Module AppletFacts.
Import Text Python Sqlite Database Observe Samples CodecFacts.

Lemma filter_none {A} (f : A -> bool) (l : list A) :
  existsb f l = false -> filter f l = [].
Proof.
  induction l as [|x l IH]; simpl; [reflexivity|].
  intro H. apply orb_false_iff in H as [Hx Hl]. rewrite Hx. auto.
Qed.


Lemma map_unchanged {A} (f : A -> bool) (g : A -> A) (l : list A) :
  existsb f l = false -> map (fun x => if f x then g x else x) l = l.
Proof.
  induction l as [|x l IH]; simpl; [reflexivity|].
  intro H. apply orb_false_iff in H as [Hx Hl]. rewrite Hx. now rewrite IH.
Qed.

Lemma set_applets_same d rows : applets d = Some rows -> set_applets d (Some rows) = d.
Proof. destruct d; simpl; intros ->; reflexivity. Qed.






Lemma has_applet_deleted applet_id d :
  has_applet applet_id (fst (applet_delete_entry applet_id d)) = false.
Proof.
  unfold has_applet, applet_delete_entry.
  destruct (applets d) as [rows|] eqn:E; simpl; [|now rewrite E].
  clear E. induction rows as [|r rows IH]; simpl; [reflexivity|].
  destruct (applet_is applet_id r) eqn:Er; simpl; [exact IH | now rewrite Er].
Qed.

(** C8: for every applet id with no matching row, [applet_load_entry]
    gives the caller [None] and raises nothing (with the table in place it
    is the [return None] of the empty result set); in particular this is
    so after [applet_delete_entry] of the id. *)
Theorem load_missing_applet :
  forall (applet_id : string) (d : db),
    has_applet applet_id d = false
    \/ (exists d0, d = fst (applet_delete_entry applet_id d0)) ->
    returned (applet_load_entry applet_id d) = Some PNone
    /\ (applets d <> None -> applet_load_entry applet_id d = Returns PNone).
Proof.
  intros applet_id d H.
  assert (Hn : has_applet applet_id d = false).
  { destruct H as [H | [d0 ->]]; [exact H | apply has_applet_deleted]. }
  clear H. unfold has_applet, applet_load_entry in *.
  destruct (applets d) as [rows|].
  - rewrite (filter_none _ _ Hn). simpl. split; reflexivity.
  - split; [reflexivity | congruence].
Qed.

Lemma load_missing_applet_witness :
  returned (applet_load_entry "a1" (fst (applet_delete_entry "a1" with_a1))) = Some PNone
  /\ (applets (fst (applet_delete_entry "a1" with_a1)) <> None ->
      applet_load_entry "a1" (fst (applet_delete_entry "a1" with_a1)) = Returns PNone).
Proof.
  apply (load_missing_applet "a1" (fst (applet_delete_entry "a1" with_a1))).
  right. exists with_a1. reflexivity.
Defined.

(** C10: for every applet id with no row in the store,
    [applet_update_lastrun] raises nothing, leaves the database as it was
    (no row is inserted) and, the table being there, ends without an
    error having been caught. *)
Theorem update_lastrun_missing :
  forall (applet_id : string) (data : pyval) (d : db),
    has_applet applet_id d = false ->
    fst (applet_update_lastrun applet_id data d) = d
    /\ returned (snd (applet_update_lastrun applet_id data d)) = Some PNone
    /\ (applets d <> None ->
        snd (applet_update_lastrun applet_id data d) = Returns PNone).
Proof.
  intros applet_id data d. unfold has_applet, applet_update_lastrun.
  destruct (applets d) as [rows|] eqn:E; intro H; simpl.
  - rewrite (map_unchanged (applet_is applet_id)
               (fun r => mk_applet (a_id r) (Some (str data)) (a_data r)) rows H).
    rewrite (set_applets_same d rows E). repeat split.
  - repeat split. congruence.
Qed.

Lemma update_lastrun_missing_witness :
  fst (applet_update_lastrun "gone" outcomeX fresh) = fresh
  /\ returned (snd (applet_update_lastrun "gone" outcomeX fresh)) = Some PNone
  /\ (applets fresh <> None ->
      snd (applet_update_lastrun "gone" outcomeX fresh) = Returns PNone).
Proof. apply (update_lastrun_missing "gone" outcomeX fresh). reflexivity. Defined.

End AppletFacts.

(** * Records that do not decode *)

Module RecordFacts.
Import Text Python Sqlite Database Observe Samples Listing CodecFacts.

(** C3, as stated, fails: the stored text [spotify] (what
    [applet_create_entry("a1", "spotify")] writes) is not a literal, and
    the error leaves [applet_load_entry] and [plugin_load_entry]; no
    [except] clause catches it and no value is returned. *)
Lemma malformed_record_not_caught :
  applets (fst (applet_create_entry "a1" (PStr "spotify") fresh))
  = applets (with_text "spotify")
  /\ applet_load_entry "a1" (with_text "spotify") = Raises LiteralError
  /\ plugin_load_entry "spotify" "1.0" (with_text "spotify") = Raises LiteralError
  /\ ~ (exists msg, applet_load_entry "a1" (with_text "spotify") = Caught msg)
  /\ returned (applet_load_entry "a1" (with_text "spotify")) <> Some PNone.
Proof.
  repeat split; try discriminate. intros [msg H]. discriminate.
Qed.

(** With [literal_eval] as the decoder, the operations over any decoder
    are the operations of the module. *)
Lemma load_entry_with_literal_eval :
  (forall applet_id d,
      applet_load_entry_with literal_eval applet_id d = applet_load_entry applet_id d)
  /\ (forall name version d,
        plugin_load_entry_with literal_eval name version d
        = plugin_load_entry name version d).
Proof. split; reflexivity. Qed.

(** C3, amended: for every stored text that [ast.literal_eval] rejects,
    the error raised by the decoder leaves [applet_load_entry] and
    [plugin_load_entry] as it is: the [except sqlite3.Error] clause does
    not catch it, nothing is logged and no value is returned.  Stated for
    every decoder and every text it rejects, so for [ast.literal_eval] on
    every text it rejects. *)
Theorem malformed_record_propagates :
  forall (decode : string -> reading) (text : string) (d : db),
    decode text = Malformed ->
    (forall applet_id rows r rest,
        applets d = Some rows ->
        filter (applet_is applet_id) rows = r :: rest ->
        a_data r = Some text ->
        applet_load_entry_with decode applet_id d = Raises LiteralError
        /\ returned (applet_load_entry_with decode applet_id d) = None)
    /\ (forall name version sought rows r rest,
        real_affinity version = Some sought ->
        plugins d = Some rows ->
        filter (plugin_matches name sought) rows = r :: rest ->
        p_settings r = Some text ->
        plugin_load_entry_with decode name version d = Raises LiteralError
        /\ returned (plugin_load_entry_with decode name version d) = None).
Proof.
  intros decode text d He. split.
  - intros applet_id rows r rest Hd Hf Hr.
    unfold applet_load_entry_with. rewrite Hd, Hf. simpl. rewrite Hr, He.
    split; reflexivity.
  - intros name version sought rows r rest Hv Hd Hf Hr.
    unfold plugin_load_entry_with. rewrite Hd, Hv, Hf. simpl. rewrite Hr, He.
    split; reflexivity.
Qed.

Lemma malformed_record_propagates_witness :
  applet_load_entry_with (rejecting "[1 2]") "a1" (with_text "[1 2]")
  = Raises LiteralError
  /\ plugin_load_entry_with (rejecting "[1 2]") "spotify" "1.0" (with_text "[1 2]")
     = Raises LiteralError
  /\ applet_load_entry "a1" (with_text "{'steps': [") = Raises LiteralError
  /\ plugin_load_entry "spotify" "1.0" (with_text "{'steps': [") = Raises LiteralError.
Proof.
  destruct (malformed_record_propagates (rejecting "[1 2]") "[1 2]"
              (with_text "[1 2]") eq_refl) as [Ha Hp].
  destruct (malformed_record_propagates literal_eval "{'steps': ["
              (with_text "{'steps': [") eq_refl) as [Ha' Hp'].
  split; [|split; [|split]].
  - exact (proj1 (Ha "a1" _ _ _ eq_refl eq_refl eq_refl)).
  - exact (proj1 (Hp "spotify" "1.0" (VReal "1.0") _ _ _ eq_refl eq_refl eq_refl eq_refl)).
  - exact (proj1 (Ha' "a1" _ _ _ eq_refl eq_refl eq_refl)).
  - exact (proj1 (Hp' "spotify" "1.0" (VReal "1.0") _ _ _ eq_refl eq_refl eq_refl eq_refl)).
Defined.

End RecordFacts.

(** * Facts about the plugin registry *)

Module PluginFacts.
Import Text Python Sqlite Database Observe Samples.


(** A version that is a numeral comes back as Python prints the stored
    double, which is not always the double nearest to the numeral. *)
Lemma version_as_stored :
  real_affinity "1" = Some (VReal "1.0")
  /\ real_affinity "2.50" = Some (VReal "2.5")
  /\ real_affinity "0.1" = Some (VReal "0.1")
  /\ real_affinity "3.069577" = Some (VReal "3.0695769999999998")
  /\ real_affinity "1.0.0" = Some (VText "1.0.0").
Proof. repeat split; vm_compute; reflexivity. Qed.




(** C9: for every name and version with no matching row in the [plugins]
    table, [plugin_load_entry] ends in the [IndexError] of [rows[0][0]];
    the [except sqlite3.Error] clause does not catch it and it reaches
    the caller. *)
Theorem load_missing_plugin :
  forall (name version : string) (sought : version_cell)
         (d : db) (rows : list plugin_row),
    real_affinity version = Some sought ->
    plugins d = Some rows ->
    filter (plugin_matches name sought) rows = [] ->
    plugin_load_entry name version d = Raises IndexError
    /\ forall v, plugin_load_entry name version d <> Returns v.
Proof.
  intros name version sought d rows Hv Hd Hf.
  unfold plugin_load_entry. rewrite Hd, Hv, Hf. split; [reflexivity | discriminate].
Qed.

Lemma load_missing_plugin_witness :
  plugin_load_entry "spotify" "3.0" (create2 "spotify" "1.0" "2.0" registry)
  = Raises IndexError
  /\ forall v, plugin_load_entry "spotify" "3.0" (create2 "spotify" "1.0" "2.0" registry)
               <> Returns v.
Proof.
  apply (load_missing_plugin "spotify" "3.0" (VReal "3.0")
           (create2 "spotify" "1.0" "2.0" registry)
           [mk_plugin 1 "spotify" (VReal "1.0") None;
            mk_plugin 2 "spotify" (VReal "2.0") None]);
    reflexivity.
Defined.

End PluginFacts.

(** * Facts about the install state and the global settings *)

Module SettingsFacts.
Import Text Python Sqlite Database Observe SettingsSpec Samples.

Lemma insert_settings_ok l :
  forall rows, all_bindable l = true ->
    insert_settings rows l = ((rows ++ map row_of l)%list, Ok).
Proof.
  induction l as [|p l IH]; intros rows H; simpl.
  - now rewrite List.app_nil_r.
  - simpl in H. apply andb_true_iff in H as [Hp Hl].
    apply andb_true_iff in Hp as [Hk Hv].
    unfold row_of, cell_of, bindable in *.
    destruct (bind (fst p)); try discriminate.
    destruct (bind (snd p)); try discriminate.
    rewrite IH by assumption. now rewrite <- app_assoc.
Qed.

Lemma all_bindable_set meta k v :
  all_bindable meta = true -> bindable k = true -> bindable v = true ->
  all_bindable (dict_set meta k v) = true.
Proof.
  intros H Hk Hv. induction meta as [|[k' v'] meta IH]; simpl in *.
  - now rewrite Hk, Hv.
  - apply andb_true_iff in H as [Hp Hl]. apply andb_true_iff in Hp as [Hk' Hv'].
    destruct (key_eqb k' k); simpl.
    + now rewrite Hk', Hv, Hl.
    + now rewrite Hk', Hv', IH.
Qed.

Lemma repr_int_not_name z : repr_int z <> "new_install".
Proof.
  destruct z as [|p|p]; unfold repr_int; simpl; try discriminate.
  destruct (Pos.to_uint p); simpl; discriminate.
Qed.

Lemma key_eqb_str k s : key_eqb k (PStr s) = true -> k = PStr s.
Proof.
  destruct k as [|b|z|t|l|e]; unfold key_eqb; simpl; try discriminate.
  intro H. apply String.eqb_eq in H. now subst.
Qed.

Lemma other_key_row k v :
  key_eqb k (PStr "new_install") = false ->
  key_is "new_install" (row_of (k, v)) = false.
Proof.
  intro H. unfold key_is, row_of, cell_of. cbn [fst snd s_key].
  destruct k as [|b|z|t|l|e]; try reflexivity.
  - destruct b; reflexivity.
  - unfold bind.
    match goal with
    | |- context [if ?c then Bound _ else TooLarge] => destruct c
    end; [|reflexivity].
    apply String.eqb_neq. apply repr_int_not_name.
  - exact H.
Qed.

(** The first row that carries the key ["new_install"] after the seeding
    holds the text [1]. *)
Lemma seeded_flag meta more :
  exists rest,
    select_value "new_install"
      (map row_of (dict_set meta (PStr "new_install") (PBool true)) ++ more)
    = Some "1" :: rest.
Proof.
  induction meta as [|[k v] meta IH]; simpl.
  - eexists; reflexivity.
  - destruct (key_eqb k (PStr "new_install")) eqn:E.
    + apply key_eqb_str in E. subst k. unfold select_value. simpl.
      eexists; reflexivity.
    + unfold select_value in *. simpl. rewrite (other_key_row k v E). exact IH.
Qed.

Lemma select_updated k v rows :
  select_value k (update_value (Some k) v rows) = map (fun _ => v) (select_value k rows).
Proof.
  unfold select_value, update_value.
  induction rows as [|r rows IH]; simpl; [reflexivity|].
  destruct (key_is k r) eqn:E; simpl.
  - unfold key_is at 1. simpl. fold (key_is k r). rewrite E. simpl. now rewrite IH.
  - rewrite E. exact IH.
Qed.

Lemma connect_seeds gs meta d defaults :
  ultrasonics d = None ->
  global_settings_database gs = Some defaults ->
  all_bindable meta = true -> all_bindable defaults = true ->
  ultrasonics (connect_db gs meta d)
  = Some (map row_of (dict_set meta (PStr "new_install") (PBool true))
            ++ map row_of defaults)%list.
Proof.
  intros Hd Hg Hm Hdf. unfold connect_db, connect, new_install.
  rewrite Hd. cbn [returned]. rewrite Hg.
  rewrite (insert_settings_ok _ _ (all_bindable_set meta (PStr "new_install") (PBool true)
                                       Hm eq_refl eq_refl)).
  rewrite (insert_settings_ok _ _ Hdf).
  simpl. reflexivity.
Qed.

(** C4: before the settings table exists [new_install()] returns [None];
    right after [connect()] has seeded the store it returns [True]; after
    [new_install(update=True)] it returns [False]. *)
Theorem new_install_transition :
  forall (gs : list dict) (meta : dict) (d : db) (defaults : list (pyval * pyval)),
    ultrasonics d = None ->
    global_settings_database gs = Some defaults ->
    all_bindable meta = true -> all_bindable defaults = true ->
    snd (new_install false d) = Returns PNone
    /\ snd (new_install false (seeded gs meta d)) = Returns (PBool true)
    /\ snd (new_install false (marked (seeded gs meta d))) = Returns (PBool false).
Proof.
  intros gs meta d defaults Hd Hg Hm Hdf.
  pose proof (connect_seeds gs meta d defaults Hd Hg Hm Hdf) as Hs.
  destruct (seeded_flag meta (map row_of defaults)) as [rest Hsel].
  repeat split.
  - unfold new_install. now rewrite Hd.
  - unfold seeded, new_install. rewrite Hs, Hsel. reflexivity.
  - unfold marked, seeded. unfold new_install at 2. rewrite Hs.
    unfold new_install. cbn [fst ultrasonics set_ultrasonics].
    rewrite select_updated, Hsel. reflexivity.
Qed.

Lemma new_install_transition_witness :
  snd (new_install false empty_db) = Returns PNone
  /\ snd (new_install false (seeded global_settings process_metadata empty_db))
     = Returns (PBool true)
  /\ snd (new_install false (marked (seeded global_settings process_metadata empty_db)))
     = Returns (PBool false).
Proof.
  apply (new_install_transition global_settings process_metadata empty_db
           [(PStr "api_url", PStr "https://ultrasonics-api.herokuapp.com/api/")]);
    reflexivity.
Defined.

(** [connect()] leaves an existing settings table as it is. *)
Lemma connect_keeps_settings gs meta d rows :
  ultrasonics d = Some rows -> ultrasonics (connect_db gs meta d) = Some rows.
Proof.
  intro H. unfold connect_db, connect, new_install. rewrite H.
  destruct (select_value "new_install" rows) as [|v l]; simpl; exact H.
Qed.

Lemma connect_from_absent gs meta d :
  ultrasonics d = None ->
  (global_settings_database gs = None /\ connect_db gs meta d = d)
  \/ (exists rows, ultrasonics (connect_db gs meta d) = Some rows).
Proof.
  intro H. unfold connect_db, connect, new_install. rewrite H. cbn [returned].
  destruct (global_settings_database gs) as [defaults|]; [right | left; split; reflexivity].
  cbn [create_if_absent set_ultrasonics ultrasonics].
  destruct (insert_settings [] _) as [rows1 [| |]]; simpl; eauto.
  destruct (insert_settings rows1 defaults) as [rows2 [| |]]; simpl; eauto.
Qed.

Lemma connect_key_error gs meta d :
  ultrasonics d = None -> global_settings_database gs = None ->
  connect_db gs meta d = d.
Proof.
  intros H Hg. unfold connect_db, connect, new_install. rewrite H. cbn [returned].
  now rewrite Hg.
Qed.

(** C5: calling [connect()] twice in a row leaves the settings table with
    the rows it has after the first call. *)
Theorem connect_idempotent :
  forall (gs : list dict) (meta : dict) (d : db),
    ultrasonics (connect_db gs (connect_meta gs meta d) (connect_db gs meta d))
    = ultrasonics (connect_db gs meta d).
Proof.
  intros gs meta d. destruct (ultrasonics d) as [rows|] eqn:E.
  - rewrite (connect_keeps_settings gs meta d rows E).
    apply connect_keeps_settings. now apply connect_keeps_settings.
  - destruct (connect_from_absent gs meta d E) as [[Hg Hsame] | [rows Hrows]].
    + rewrite Hsame. now rewrite (connect_key_error gs _ d E Hg).
    + rewrite Hrows. now apply connect_keeps_settings.
Qed.

(** *** Loading the settings *)

Lemma keyclass_eqb_eq x y : keyclass_eqb x y = true <-> x = y.
Proof.
  destruct x, y; simpl; split; intro H; try discriminate; try reflexivity.
  - apply Z.eqb_eq in H. now subst.
  - inversion H. apply Z.eqb_refl.
  - apply String.eqb_eq in H. now subst.
  - inversion H. apply String.eqb_refl.
Qed.

Lemma key_eqb_iff a b :
  key_eqb a b = true <-> exists c, key_class a = Some c /\ key_class b = Some c.
Proof.
  unfold key_eqb. destruct (key_class a) as [x|], (key_class b) as [y|]; split;
    try discriminate; try (intros [c [H1 H2]]; discriminate).
  - intro H. apply keyclass_eqb_eq in H. subst. now exists y.
  - intros [c [H1 H2]]. apply keyclass_eqb_eq. congruence.
Qed.

Lemma key_eqb_sym a b : key_eqb a b = key_eqb b a.
Proof.
  destruct (key_eqb a b) eqn:E1, (key_eqb b a) eqn:E2; try reflexivity.
  - apply key_eqb_iff in E1 as [c [H1 H2]].
    assert (key_eqb b a = true) by (apply key_eqb_iff; eauto). congruence.
  - apply key_eqb_iff in E2 as [c [H1 H2]].
    assert (key_eqb a b = true) by (apply key_eqb_iff; eauto). congruence.
Qed.

Lemma key_eqb_trans a b c :
  key_eqb a b = true -> key_eqb b c = true -> key_eqb a c = true.
Proof.
  intros H1 H2. apply key_eqb_iff in H1 as [x [Ha Hb]].
  apply key_eqb_iff in H2 as [y [Hb' Hc]]. apply key_eqb_iff.
  exists x. split; congruence.
Qed.

Lemma dict_get_set_same d k v k' :
  key_eqb k k' = true -> dict_get (dict_set d k v) k' = Some v.
Proof.
  intro H. induction d as [|[x y] d IH]; simpl.
  - now rewrite H.
  - destruct (key_eqb x k) eqn:E; simpl.
    + now rewrite (key_eqb_trans x k k' E H).
    + destruct (key_eqb x k') eqn:E'; [|exact IH].
      rewrite key_eqb_sym in H.
      now rewrite (key_eqb_trans x k' k E' H) in E.
Qed.

Lemma dict_get_set_other d k v k' :
  key_eqb k k' = false -> dict_get (dict_set d k v) k' = dict_get d k'.
Proof.
  intro H. induction d as [|[x y] d IH]; simpl.
  - now rewrite H.
  - destruct (key_eqb x k) eqn:E; simpl.
    + destruct (key_eqb x k') eqn:E'; [|reflexivity].
      rewrite key_eqb_sym in E.
      now rewrite (key_eqb_trans k x k' E E') in H.
    + now rewrite IH.
Qed.

Lemma dict_set_twice d k v v' :
  key_eqb k k = true -> dict_set (dict_set d k v) k v' = dict_set d k v'.
Proof.
  intro H. induction d as [|[x y] d IH]; simpl.
  - now rewrite H.
  - destruct (key_eqb x k) eqn:E; simpl; rewrite E; [reflexivity | now rewrite IH].
Qed.

(** The view of the settings as the specification words it. *)

Lemma spec_stored_app rows r key :
  spec_stored (rows ++ [r]) key
  = if key_eqb key (py_of_text (s_key r)) then Some (py_of_text (s_value r))
    else spec_stored rows key.
Proof.
  induction rows as [|r0 rows IH]; simpl.
  - reflexivity.
  - rewrite IH. now destruct (key_eqb key (py_of_text (s_key r))).
Qed.

Lemma compatible_names gs :
  schema_ok gs = true ->
  exists names,
    db_compatible_settings gs = Some names
    /\ forall item n, In item gs -> name_of item = Some n -> In n names.
Proof.
  induction gs as [|item gs IH]; simpl; intro H.
  - exists []. split; [reflexivity | intros ? ? []].
  - apply andb_true_iff in H as [Hi Hg].
    destruct (IH Hg) as [names [Hn Hin]]. unfold item_ok, name_of in *.
    destruct (dict_get item (PStr "type")) as [t|]; [|discriminate].
    destruct (is_setting_type t), (dict_get item (PStr "name")) as [n|] eqn:En;
      try discriminate; rewrite Hn; simpl.
    + exists (n :: names). split; [reflexivity|].
      intros item' n' [<- | Hin'] Hname.
      * left. congruence.
      * right. eauto.
    + exists names. split; [reflexivity|].
      intros item' n' [<- | Hin'] Hname; [congruence | eauto].
Qed.

Lemma name_after_set item v :
  dict_get (dict_set item (PStr "value") v) (PStr "name") = dict_get item (PStr "name").
Proof. now apply dict_get_set_other. Qed.

Lemma spec_merge_name rows item : name_of (spec_merge rows item) = name_of item.
Proof.
  unfold spec_merge. destruct (spec_configurable item); [|reflexivity].
  destruct (name_of item) as [n|] eqn:E; [|exact E].
  destruct (spec_stored rows n); [|exact E].
  unfold name_of in *. now rewrite name_after_set.
Qed.

(** One more row, seen from one descriptor. *)
Lemma spec_merge_app rows r item :
  item_ok item = true ->
  spec_merge (rows ++ [r]) item
  = overwrite (py_of_text (s_key r)) (py_of_text (s_value r)) (spec_merge rows item).
Proof.
  intro Hok. unfold overwrite.
  fold (name_of (spec_merge rows item)). rewrite spec_merge_name.
  unfold spec_merge, item_ok, spec_configurable in *.
  destruct (dict_get item (PStr "type")) as [t|]; [|discriminate].
  destruct (is_setting_type t), (name_of item) as [n|] eqn:En; try discriminate;
    try reflexivity.
  rewrite spec_stored_app.
  destruct (key_eqb n (py_of_text (s_key r))); [|reflexivity].
  destruct (spec_stored rows n); [|reflexivity].
  now rewrite dict_set_twice.
Qed.

Lemma merge_rows_spec gs names :
  schema_ok gs = true ->
  (forall item n, In item gs -> name_of item = Some n -> In n names) ->
  forall rows, fold_left (merge_row names) rows gs = spec_load rows gs.
Proof.
  intros Hok Hnames rows. unfold spec_load.
  induction rows as [|r rows IH] using rev_ind.
  - simpl. symmetry. rewrite <- (map_id gs) at 2. apply map_ext_in.
    intros item _. unfold spec_merge. destruct (spec_configurable item); [|reflexivity].
    now destruct (name_of item).
  - rewrite fold_left_app. simpl. rewrite IH. unfold merge_row.
    unfold schema_ok in Hok. rewrite forallb_forall in Hok.
    destruct (existsb _ names) eqn:E.
    + rewrite map_map. apply map_ext_in. intros item Hin.
      symmetry. apply spec_merge_app. auto.
    + apply map_ext_in. intros item Hin.
      rewrite (spec_merge_app rows r item (Hok _ Hin)).
      unfold overwrite. fold (name_of (spec_merge rows item)).
      rewrite spec_merge_name.
      destruct (name_of item) as [n|] eqn:En; [|reflexivity].
      destruct (key_eqb n (py_of_text (s_key r))) eqn:Ek; [|reflexivity].
      assert (Hex : existsb (fun n0 => key_eqb n0 (py_of_text (s_key r))) names = true).
      { apply existsb_exists. exists n. split; [eapply Hnames; eauto | exact Ek]. }
      congruence.
Qed.

Lemma raw_lookup rows :
  forall acc k,
    dict_get (fold_left
                (fun data r => dict_set data (py_of_text (s_key r)) (py_of_text (s_value r)))
                rows acc) k
    = match spec_stored rows k with
      | Some v => Some v
      | None => dict_get acc k
      end.
Proof.
  induction rows as [|r rows IH]; intros acc k; simpl; [reflexivity|].
  rewrite IH. destruct (spec_stored rows k); [reflexivity|].
  rewrite (key_eqb_sym k).
  destruct (key_eqb (py_of_text (s_key r)) k) eqn:E.
  - now apply dict_get_set_same.
  - now apply dict_get_set_other.
Qed.

(** C6: with the settings table in any state, [global_settings_load()]
    returns the schema in which every configurable descriptor whose name
    has a stored row carries the stored value, the others keep their
    default and the display descriptors are unchanged; the names in the
    result are those of the schema, so stored keys the schema does not
    have are not in it.  [global_settings_load(raw=True)] returns the dict
    of the stored keys and values. *)
Theorem settings_load_merges :
  forall (gs : list dict) (d : db) (rows : list setting_row),
    ultrasonics d = Some rows ->
    schema_ok gs = true ->
    global_settings_load gs false d = Returns (PList (map PDict (spec_load rows gs)))
    /\ map name_of (spec_load rows gs) = map name_of gs
    /\ exists data,
         global_settings_load gs true d = Returns (PDict data)
         /\ forall k, dict_get data k = spec_stored rows k.
Proof.
  intros gs d rows Hd Hok. unfold global_settings_load. rewrite Hd.
  destruct (compatible_names gs Hok) as [names [Hn Hin]]. rewrite Hn.
  repeat split.
  - now rewrite (merge_rows_spec gs names Hok Hin).
  - unfold spec_load. rewrite map_map. apply map_ext. apply spec_merge_name.
  - exists (raw_settings rows). split; [reflexivity|].
    intro k. unfold raw_settings. rewrite raw_lookup.
    now destruct (spec_stored rows k).
Qed.

(** [global_settings_save] hands each tuple to
    [UPDATE ultrasonics SET value = ? WHERE key = ?] as it is: the value
    comes first, the key second.  A tuple written key first names no row
    and changes nothing. *)
Example save_takes_value_first :
  ultrasonics customised
  = Some [mk_setting (Some "version") (Some "1.0.0");
          mk_setting (Some "new_install") (Some "1");
          mk_setting (Some "api_url") (Some "https://custom/")]
  /\ fst (global_settings_save [(PStr "api_url", PStr "https://custom/")]
            (seeded global_settings process_metadata empty_db))
     = seeded global_settings process_metadata empty_db.
Proof. split; reflexivity. Qed.

Lemma settings_load_merges_witness :
  global_settings_load global_settings false customised
  = Returns (PList (map PDict
               (spec_load
                  [mk_setting (Some "version") (Some "1.0.0");
                   mk_setting (Some "new_install") (Some "1");
                   mk_setting (Some "api_url") (Some "https://custom/")]
                  global_settings)))
  /\ dict_get (raw_settings [mk_setting (Some "version") (Some "1.0.0");
                             mk_setting (Some "new_install") (Some "1");
                             mk_setting (Some "api_url") (Some "https://custom/")])
              (PStr "api_url")
     = Some (PStr "https://custom/").
Proof.
  destruct (settings_load_merges global_settings customised
              [mk_setting (Some "version") (Some "1.0.0");
               mk_setting (Some "new_install") (Some "1");
               mk_setting (Some "api_url") (Some "https://custom/")]
              eq_refl eq_refl) as [H [_ _]].
  split; [exact H | reflexivity].
Defined.

End SettingsFacts.

(** * Further facts about the applet store *)

Module AppletLaws.
Import Text Python Sqlite Database Observe Samples Listing CodecFacts.



Lemma gather_rows_app rows more :
  forall acc l,
    gather_rows rows acc = Returns (PList l) ->
    gather_rows (rows ++ more) acc = gather_rows more l.
Proof.
  induction rows as [|r rows IH]; intros acc l H.
  - simpl in H. inversion H. reflexivity.
  - cbn [app gather_rows] in *.
    destruct (a_lastrun r) as [t|].
    + destruct (eval_cell (a_data r)) as [plans| |]; try discriminate.
      destruct (literal_eval t) as [lastrun| |]; try discriminate.
      now apply IH.
    + destruct (eval_cell (a_data r)) as [plans| |]; try discriminate.
      now apply IH.
Qed.

Lemma absent_keeps_all {A} (f : A -> bool) (l : list A) :
  existsb f l = false -> filter (fun x => negb (f x)) l = l.
Proof.
  induction l as [|x l IH]; simpl; [reflexivity|].
  intro H. apply orb_false_iff in H as [Hx Hl]. rewrite Hx. simpl. now rewrite IH.
Qed.



(** *** The listing under the operations *)

Lemma gather_rows_views rows :
  forall acc l,
    gather_rows rows acc = Returns (PList l) ->
    exists vs, views rows = Some vs /\ l = (acc ++ vs)%list.
Proof.
  induction rows as [|r rows IH]; intros acc l H.
  - simpl in H. inversion H. exists []. now rewrite List.app_nil_r.
  - cbn [gather_rows views] in *. unfold row_view.
    destruct (eval_cell (a_data r)) as [plans| |];
      try (destruct (a_lastrun r); discriminate).
    destruct (a_lastrun r) as [t|].
    + destruct (literal_eval t) as [lastrun| |]; try discriminate.
      destruct (IH _ _ H) as [vs [Hv ->]]. rewrite Hv.
      eexists; split; [reflexivity|]. now rewrite <- app_assoc.
    + destruct (IH _ _ H) as [vs [Hv ->]]. rewrite Hv.
      eexists; split; [reflexivity|]. now rewrite <- app_assoc.
Qed.

Lemma views_gather_rows rows :
  forall acc vs,
    views rows = Some vs -> gather_rows rows acc = Returns (PList (acc ++ vs)%list).
Proof.
  induction rows as [|r rows IH]; intros acc vs H.
  - simpl in H. inversion H. simpl. now rewrite List.app_nil_r.
  - cbn [gather_rows views] in *. unfold row_view in H.
    destruct (eval_cell (a_data r)) as [plans| |]; try discriminate.
    destruct (a_lastrun r) as [t|].
    + destruct (literal_eval t) as [lastrun| |]; try discriminate.
      destruct (views rows) as [vs'|]; [|discriminate]. inversion H; subst.
      rewrite (IH _ vs' eq_refl). now rewrite <- app_assoc.
    + destruct (views rows) as [vs'|]; [|discriminate]. inversion H; subst.
      rewrite (IH _ vs' eq_refl). now rewrite <- app_assoc.
Qed.

Lemma row_view_id applet_id r v :
  row_view r = Value v -> listed_as applet_id v = applet_is applet_id r.
Proof.
  unfold row_view.
  destruct (eval_cell (a_data r)) as [plans| |]; try discriminate.
  destruct (a_lastrun r) as [t|].
  - destruct (literal_eval t) as [lastrun| |]; try discriminate.
    intro H. inversion H. reflexivity.
  - intro H. inversion H. reflexivity.
Qed.

Lemma views_without applet_id rows :
  forall vs,
    views rows = Some vs ->
    views (filter (fun r => negb (applet_is applet_id r)) rows)
    = Some (filter (fun v => negb (listed_as applet_id v)) vs).
Proof.
  induction rows as [|r rows IH]; intros vs H.
  - simpl in *. now inversion H.
  - cbn [views] in H.
    destruct (row_view r) as [v| |] eqn:Er; try discriminate.
    destruct (views rows) as [vs'|]; [|discriminate]. inversion H; subst.
    cbn [filter]. rewrite (row_view_id applet_id r v Er).
    destruct (applet_is applet_id r); cbn [negb].
    + now apply IH.
    + cbn [views]. rewrite Er. now rewrite (IH vs' eq_refl).
Qed.


Lemma gathered d l :
  applet_gather d = Returns (PList l) ->
  exists rows, applets d = Some rows /\ views rows = Some l.
Proof.
  unfold applet_gather. destruct (applets d) as [rows|]; [|discriminate].
  intro H. destruct (gather_rows_views rows [] l H) as [vs [Hv ->]]. eauto.
Qed.



(** X3: when the store can be listed, after [applet_delete_entry(id)] the
    list is the old one without the dicts of the id. *)
Theorem gather_after_delete :
  forall (applet_id : string) (d : db) (old : list pyval),
    applet_gather d = Returns (PList old) ->
    applet_gather (fst (applet_delete_entry applet_id d))
    = Returns (PList (filter (fun v => negb (listed_as applet_id v)) old)).
Proof.
  intros applet_id d old Hg.
  destruct (gathered d old Hg) as [rows [Hd Hv]].
  unfold applet_delete_entry, applet_gather. rewrite Hd. cbn [fst applets set_applets].
  apply (views_gather_rows _ []). now apply views_without.
Qed.

Lemma gather_after_delete_witness :
  applet_gather (fst (applet_delete_entry "a1"
                        (mk_db None None (Some (map row_of_entry two_entries)))))
  = Returns (PList [listed ("a2", planB, None)]).
Proof.
  apply (gather_after_delete "a1"
           (mk_db None None (Some (map row_of_entry two_entries)))
           (map listed two_entries)); reflexivity.
Defined.




Lemma gather_rows_with_app decode rows more :
  forall acc l,
    gather_rows_with decode rows acc = Returns (PList l) ->
    gather_rows_with decode (rows ++ more) acc = gather_rows_with decode more l.
Proof.
  induction rows as [|r rows IH]; intros acc l H.
  - simpl in H. inversion H. reflexivity.
  - cbn [app gather_rows_with] in *.
    destruct (a_lastrun r) as [t|].
    + destruct (eval_cell_with decode (a_data r)) as [plans| |]; try discriminate.
      destruct (decode t) as [lastrun| |]; try discriminate.
      now apply IH.
    + destruct (eval_cell_with decode (a_data r)) as [plans| |]; try discriminate.
      now apply IH.
Qed.

(** With [literal_eval] as the decoder, the listing over any decoder is
    [applet_gather]. *)
Lemma gather_with_literal_eval d :
  applet_gather_with literal_eval d = applet_gather d.
Proof.
  unfold applet_gather_with, applet_gather.
  destruct (applets d) as [rows|]; [|reflexivity].
  generalize (@nil pyval). induction rows as [|r rows IH]; intro acc; [reflexivity|].
  cbn [gather_rows_with gather_rows]. unfold eval_cell_with, eval_cell.
  destruct (a_lastrun r) as [t|], (a_data r) as [x|]; reflexivity.
Qed.

(** X5: one record that does not decode stops the whole listing: when
    the rows before it can be listed and the decoder rejects its [data]
    (a [NULL] among them), or reads its [data] and rejects its
    [lastrun], [applet_gather] ends in the decoder's error, whatever the
    rows after it hold.  Stated for every decoder, so for
    [ast.literal_eval] on every text it rejects. *)
Theorem gather_stops_at_malformed :
  forall (decode : string -> reading) (before : list applet_row) (bad : applet_row)
         (rest : list applet_row) (d : db) (listed_before : list pyval),
    applets d = Some (before ++ bad :: rest)%list ->
    gather_rows_with decode before [] = Returns (PList listed_before) ->
    row_rejected decode bad = true ->
    applet_gather_with decode d = Raises LiteralError.
Proof.
  intros decode before bad rest d l Hd Hok Hbad. unfold applet_gather_with. rewrite Hd.
  rewrite (gather_rows_with_app decode _ (bad :: rest) [] _ Hok).
  cbn [gather_rows_with]. unfold row_rejected in Hbad.
  destruct (eval_cell_with decode (a_data bad)) as [plans| |];
    destruct (a_lastrun bad) as [t|]; try discriminate; try reflexivity.
  destruct (decode t); try discriminate; reflexivity.
Qed.

Lemma gather_stops_at_malformed_witness :
  applet_gather_with (rejecting "[1 2]")
    (mk_db None None
       (Some (map row_of_entry two_entries
                ++ mk_applet "a3" None (Some "[1 2]") :: map row_of_entry two_entries)%list))
  = Raises LiteralError.
Proof.
  apply (gather_stops_at_malformed (rejecting "[1 2]") (map row_of_entry two_entries)
           (mk_applet "a3" None (Some "[1 2]"))
           (map row_of_entry two_entries)
           (mk_db None None
              (Some (map row_of_entry two_entries
                       ++ mk_applet "a3" None (Some "[1 2]")
                       :: map row_of_entry two_entries)%list))
           (map listed two_entries));
    reflexivity.
Defined.

(** *** One applet and the others *)

Lemma other_rows_kept (applet_id other : string) (rows : list applet_row) :
  other <> applet_id ->
  filter (applet_is other) (filter (fun r => negb (applet_is applet_id r)) rows)
  = filter (applet_is other) rows.
Proof.
  intro Hne. induction rows as [|r rows IH]; simpl; [reflexivity|].
  destruct (applet_is applet_id r) eqn:E; simpl.
  - assert (Ho : applet_is other r = false).
    { unfold applet_is in *. apply String.eqb_eq in E.
      apply String.eqb_neq. congruence. }
    now rewrite Ho.
  - now rewrite IH.
Qed.




Lemma data_after_update applet_id any text rows :
  map a_data
    (filter (applet_is any)
       (map (fun r => if applet_is applet_id r
                      then mk_applet (a_id r) (Some text) (a_data r)
                      else r) rows))
  = map a_data (filter (applet_is any) rows).
Proof.
  induction rows as [|r rows IH]; simpl; [reflexivity|].
  destruct (applet_is applet_id r); unfold applet_is at 1; simpl;
    fold (applet_is any r); destruct (applet_is any r); simpl; now rewrite IH.
Qed.

Lemma lastrun_after_update applet_id any text rows :
  map a_lastrun
    (filter (applet_is any)
       (map (fun r => if applet_is applet_id r
                      then mk_applet (a_id r) (Some text) (a_data r)
                      else r) rows))
  = map (fun r => if applet_is applet_id r then Some text else a_lastrun r)
        (filter (applet_is any) rows).
Proof.
  induction rows as [|r rows IH]; simpl; [reflexivity|].
  destruct (applet_is applet_id r) eqn:E; unfold applet_is at 1; simpl;
    fold (applet_is any r); destruct (applet_is any r); simpl;
    rewrite ?E; now rewrite IH.
Qed.

(** X7: [applet_update_lastrun(id, x)] is scoped to one column of one id:
    what [applet_load_entry] gives is unchanged for every id, the stored
    last run of the id becomes [str(x)] in each of its rows, the stored
    last run of every other id is unchanged, and the ids in the table are
    the same. *)
Theorem update_lastrun_scoped :
  forall (applet_id : string) (x : pyval) (d : db),
    (forall any, applet_load_entry any (fst (applet_update_lastrun applet_id x d))
                 = applet_load_entry any d)
    /\ stored_lastrun applet_id (fst (applet_update_lastrun applet_id x d))
       = map (fun _ => Some (str x)) (stored_lastrun applet_id d)
    /\ (forall other, other <> applet_id ->
          stored_lastrun other (fst (applet_update_lastrun applet_id x d))
          = stored_lastrun other d)
    /\ applet_ids (fst (applet_update_lastrun applet_id x d)) = applet_ids d.
Proof.
  intros applet_id x d.
  unfold applet_update_lastrun, applet_load_entry, stored_lastrun, applet_ids.
  destruct (applets d) as [rows|] eqn:E; cbn [fst applets set_applets];
    [|rewrite E; repeat split; reflexivity].
  repeat split.
  - intro any. now rewrite data_after_update.
  - rewrite lastrun_after_update, map_map. apply map_ext_in.
    intros r Hin. apply filter_In in Hin as [_ Hr]. now rewrite Hr.
  - intros other Hne. rewrite lastrun_after_update.
    rewrite <- (map_id (map a_lastrun _)), map_map. apply map_ext_in.
    intros r Hin. apply filter_In in Hin as [_ Ho].
    destruct (applet_is applet_id r) eqn:Ea; [|reflexivity].
    unfold applet_is in *. apply String.eqb_eq in Ea, Ho. congruence.
  - rewrite map_map. apply map_ext. intro r. now destruct (applet_is applet_id r).
Qed.

Lemma filter_twice {A} (f : A -> bool) (l : list A) :
  filter f (filter f l) = filter f l.
Proof.
  induction l as [|x l IH]; simpl; [reflexivity|].
  destruct (f x) eqn:E; simpl; [rewrite E|]; now rewrite IH.
Qed.

(** X8: [applet_delete_entry(id)] can be repeated: the second call
    changes nothing and, the table being there, returns as the first; and
    it is scoped to the id: the plans loaded and the stored last run of
    every other id are what they were. *)
Theorem delete_repeatable_scoped :
  forall (applet_id : string) (d : db),
    fst (applet_delete_entry applet_id (fst (applet_delete_entry applet_id d)))
    = fst (applet_delete_entry applet_id d)
    /\ (applets d <> None ->
        snd (applet_delete_entry applet_id (fst (applet_delete_entry applet_id d)))
        = Returns PNone)
    /\ forall other, other <> applet_id ->
         applet_load_entry other (fst (applet_delete_entry applet_id d))
         = applet_load_entry other d
         /\ stored_lastrun other (fst (applet_delete_entry applet_id d))
            = stored_lastrun other d.
Proof.
  intros applet_id d.
  unfold applet_delete_entry, applet_load_entry, stored_lastrun.
  destruct (applets d) as [rows|] eqn:E; cbn [fst snd applets set_applets].
  - rewrite filter_twice. split; [reflexivity|]. split; [reflexivity|].
    intros other Hne. now rewrite (other_rows_kept applet_id other rows Hne).
  - rewrite ?E. cbn [fst snd]. rewrite ?E.
    split; [reflexivity|]. split; [congruence|]. intros; split; reflexivity.
Qed.

(** *** The primary key *)

Lemma absent_after_filter (p : string -> bool) (g : applet_row -> bool) rows :
  existsb p (map a_id rows) = false ->
  existsb p (map a_id (filter g rows)) = false.
Proof.
  induction rows as [|r rows IH]; simpl; [reflexivity|].
  intro H. apply orb_false_iff in H as [Hr Hrest].
  destruct (g r); simpl; [rewrite Hr|]; auto.
Qed.

Lemma distinct_after_filter (g : applet_row -> bool) rows :
  distinct (map a_id rows) = true -> distinct (map a_id (filter g rows)) = true.
Proof.
  induction rows as [|r rows IH]; simpl; [reflexivity|].
  intro H. apply andb_true_iff in H as [Hr Hrest].
  destruct (g r); simpl; [|auto].
  apply negb_true_iff in Hr.
  rewrite (absent_after_filter _ g rows Hr). simpl. auto.
Qed.

Lemma distinct_with_new (l : list string) (x : string) :
  distinct l = true -> existsb (String.eqb x) l = false ->
  distinct (l ++ [x]) = true.
Proof.
  induction l as [|y l IH]; simpl; [reflexivity|].
  intros H Hx. apply andb_true_iff in H as [Hy Hl].
  apply orb_false_iff in Hx as [Hxy Hxl].
  rewrite existsb_app. simpl. rewrite String.eqb_sym, Hxy, orb_false_r.
  rewrite Hy. simpl. auto.
Qed.

Lemma id_gone applet_id rows :
  existsb (String.eqb applet_id)
    (map a_id (filter (fun r => negb (applet_is applet_id r)) rows)) = false.
Proof.
  induction rows as [|r rows IH]; simpl; [reflexivity|].
  destruct (applet_is applet_id r) eqn:E; simpl; [exact IH|].
  unfold applet_is in E. now rewrite String.eqb_sym, E.
Qed.

(** X9: the three writing operations keep the ids of the table pairwise
    different; after [applet_create_entry(id, ...)] the id is in the table
    (once, the table being there), after [applet_delete_entry(id)] it is
    not. *)
Theorem ids_stay_distinct :
  forall (applet_id : string) (v : pyval) (d : db),
    distinct (applet_ids d) = true ->
    distinct (applet_ids (fst (applet_create_entry applet_id v d))) = true
    /\ distinct (applet_ids (fst (applet_update_lastrun applet_id v d))) = true
    /\ distinct (applet_ids (fst (applet_delete_entry applet_id d))) = true
    /\ (applets d <> None ->
        existsb (String.eqb applet_id)
          (applet_ids (fst (applet_create_entry applet_id v d))) = true)
    /\ existsb (String.eqb applet_id)
         (applet_ids (fst (applet_delete_entry applet_id d))) = false.
Proof.
  intros applet_id v d.
  unfold applet_ids, applet_create_entry, applet_update_lastrun, applet_delete_entry.
  destruct (applets d) as [rows|] eqn:E; cbn [fst applets set_applets]; intro H.
  - repeat split.
    + unfold replace_applet. rewrite map_app. simpl.
      apply distinct_with_new; [now apply distinct_after_filter | apply id_gone].
    + rewrite map_map.
      replace (map _ rows) with (map a_id rows); [exact H|].
      apply map_ext. intro r. now destruct (applet_is applet_id r).
    + now apply distinct_after_filter.
    + intros _. unfold replace_applet. rewrite map_app, existsb_app. simpl.
      now rewrite String.eqb_refl, orb_true_r.
    + apply id_gone.
  - rewrite E. repeat split. congruence.
Qed.

Lemma ids_stay_distinct_witness :
  distinct (applet_ids (fst (applet_create_entry "a1" planB with_a1))) = true
  /\ distinct (applet_ids (fst (applet_update_lastrun "a1" planB with_a1))) = true
  /\ distinct (applet_ids (fst (applet_delete_entry "a1" with_a1))) = true
  /\ (applets with_a1 <> None ->
      existsb (String.eqb "a1")
        (applet_ids (fst (applet_create_entry "a1" planB with_a1))) = true)
  /\ existsb (String.eqb "a1") (applet_ids (fst (applet_delete_entry "a1" with_a1)))
     = false.
Proof. apply (ids_stay_distinct "a1" planB with_a1). reflexivity. Defined.

End AppletLaws.

(** * Further facts about the plugin registry *)

Module PluginLaws.
Import Text Python Sqlite Database Observe Samples Listing CodecFacts.

Lemma version_eqb_eq a b : version_eqb a b = true -> a = b.
Proof.
  destruct a, b; simpl; intro H; try discriminate;
    apply String.eqb_eq in H; now subst.
Qed.

Lemma matches_same_key name sought name2 sought2 r :
  plugin_matches name sought r = true ->
  plugin_matches name2 sought2 r = true ->
  name2 = name /\ sought2 = sought.
Proof.
  unfold plugin_matches. intros H1 H2.
  apply andb_true_iff in H1 as [Hn1 Hv1]. apply andb_true_iff in H2 as [Hn2 Hv2].
  apply String.eqb_eq in Hn1, Hn2. apply version_eqb_eq in Hv1, Hv2.
  split; congruence.
Qed.


Lemma settings_beside_update name sought name2 sought2 text rows :
  name2 <> name \/ sought2 <> sought ->
  filter (plugin_matches name2 sought2)
    (map (fun r => if plugin_matches name sought r
                   then mk_plugin (p_id r) (p_plugin r) (p_version r) (Some text)
                   else r) rows)
  = filter (plugin_matches name2 sought2) rows.
Proof.
  intro Hne. induction rows as [|r rows IH]; simpl; [reflexivity|].
  destruct (plugin_matches name sought r) eqn:E.
  - unfold plugin_matches at 1. simpl. fold (plugin_matches name2 sought2 r).
    destruct (plugin_matches name2 sought2 r) eqn:E2.
    + destruct (matches_same_key _ _ _ _ _ E E2) as [Hn Hv].
      destruct Hne; contradiction.
    + exact IH.
  - destruct (plugin_matches name2 sought2 r); now rewrite IH.
Qed.



(** X11: [plugin_update_entry] on a name and version no row has changes
    nothing and reports nothing: the database is as before and, the table
    being there, the call returns [None]. *)
Theorem update_without_match :
  forall (name v : string) (sought : version_cell) (settings : pyval) (d : db),
    real_affinity v = Some sought ->
    has_plugin name sought d = false ->
    fst (plugin_update_entry name v settings d) = d
    /\ (plugins d <> None -> snd (plugin_update_entry name v settings d) = Returns PNone).
Proof.
  intros name v sought settings d Hv Hhas.
  unfold has_plugin, plugin_update_entry in *.
  destruct (plugins d) as [rows|] eqn:E; [|split; [reflexivity | congruence]].
  rewrite Hv. cbn [fst snd]. split; [|reflexivity].
  rewrite (AppletFacts.map_unchanged (plugin_matches name sought)
             (fun r => mk_plugin (p_id r) (p_plugin r) (p_version r) (Some (str settings)))
             rows Hhas).
  destruct d; simpl in *. now rewrite E.
Qed.

Lemma update_without_match_witness :
  fst (plugin_update_entry "spotify" "3.0" planA (create2 "spotify" "1.0" "2.0" registry))
  = create2 "spotify" "1.0" "2.0" registry
  /\ (plugins (create2 "spotify" "1.0" "2.0" registry) <> None ->
      snd (plugin_update_entry "spotify" "3.0" planA
             (create2 "spotify" "1.0" "2.0" registry)) = Returns PNone).
Proof.
  apply (update_without_match "spotify" "3.0" (VReal "3.0") planA
           (create2 "spotify" "1.0" "2.0" registry)); reflexivity.
Defined.

(** X12: [plugin_update_entry] touches the settings of its own name and
    version only: for every other name or version [plugin_load_entry]
    gives what it gave, and for every name [plugin_entry_exists] gives
    what it gave. *)
Theorem update_scoped :
  forall (name v name2 v2 : string) (sought sought2 : version_cell)
         (settings : pyval) (d : db),
    real_affinity v = Some sought -> real_affinity v2 = Some sought2 ->
    name2 <> name \/ sought2 <> sought ->
    plugin_load_entry name2 v2 (fst (plugin_update_entry name v settings d))
    = plugin_load_entry name2 v2 d
    /\ forall any, plugin_entry_exists any (fst (plugin_update_entry name v settings d))
                   = plugin_entry_exists any d.
Proof.
  intros name v name2 v2 sought sought2 settings d Hv Hv2 Hne.
  unfold plugin_update_entry, plugin_load_entry, plugin_entry_exists.
  destruct (plugins d) as [rows|] eqn:E; cbn [fst]; [|rewrite E; split; reflexivity].
  rewrite Hv. cbn [fst plugins set_plugins]. rewrite Hv2. split.
  - now rewrite (settings_beside_update name sought name2 sought2 _ rows Hne).
  - intro any.
    replace (map p_version (filter (fun r => String.eqb (p_plugin r) any)
               (map (fun r => if plugin_matches name sought r
                              then mk_plugin (p_id r) (p_plugin r) (p_version r)
                                             (Some (str settings))
                              else r) rows)))
      with (map p_version (filter (fun r => String.eqb (p_plugin r) any) rows));
      [reflexivity|].
    clear E. induction rows as [|r rows IH]; simpl; [reflexivity|].
    destruct (plugin_matches name sought r); simpl;
      destruct (String.eqb (p_plugin r) any); simpl; now rewrite IH.
Qed.

Lemma update_scoped_witness :
  plugin_load_entry "spotify" "2.0"
    (fst (plugin_update_entry "spotify" "1.0" planA (create2 "spotify" "1.0" "2.0" registry)))
  = plugin_load_entry "spotify" "2.0" (create2 "spotify" "1.0" "2.0" registry)
  /\ forall any,
       plugin_entry_exists any
         (fst (plugin_update_entry "spotify" "1.0" planA
                 (create2 "spotify" "1.0" "2.0" registry)))
       = plugin_entry_exists any (create2 "spotify" "1.0" "2.0" registry).
Proof.
  apply (update_scoped "spotify" "1.0" "spotify" "2.0" (VReal "1.0") (VReal "2.0")
           planA (create2 "spotify" "1.0" "2.0" registry));
    [reflexivity | reflexivity | right; discriminate].
Defined.

Lemma version_eqb_refl c : version_eqb c c = true.
Proof. destruct c; simpl; apply String.eqb_refl. Qed.

Lemma no_match_empty name sought rows :
  existsb (plugin_matches name sought) rows = false ->
  filter (plugin_matches name sought) rows = [].
Proof. apply AppletFacts.filter_none. Qed.

Lemma match_nonempty name sought rows :
  existsb (plugin_matches name sought) rows = true ->
  exists r l, filter (plugin_matches name sought) rows = r :: l.
Proof.
  intro H. destruct (filter (plugin_matches name sought) rows) as [|r l] eqn:Ef; eauto.
  apply existsb_exists in H as [r [Hin Hr]].
  assert (Hin' : In r (filter (plugin_matches name sought) rows))
    by (apply filter_In; auto).
  rewrite Ef in Hin'. contradiction.
Qed.

(** X13: a plugin just created has no settings, and a second creation
    does not hide the first: [plugin_load_entry] after
    [plugin_create_entry] returns [None] when no row of the name and
    version was there, and what it gave before when one was; for every
    other name or version it gives what it gave. *)
Theorem create_then_load_plugin :
  forall (name v : string) (sought : version_cell) (d : db) (rows : list plugin_row),
    plugins d = Some rows ->
    real_affinity v = Some sought ->
    plugin_load_entry name v (fst (plugin_create_entry name v d))
    = (if has_plugin name sought d then plugin_load_entry name v d else Returns PNone)
    /\ forall name2 v2 sought2,
         real_affinity v2 = Some sought2 ->
         name2 <> name \/ sought2 <> sought ->
         plugin_load_entry name2 v2 (fst (plugin_create_entry name v d))
         = plugin_load_entry name2 v2 d.
Proof.
  intros name v sought d rows Hd Hv.
  unfold has_plugin, plugin_create_entry, plugin_load_entry.
  rewrite Hd, Hv. cbn [fst plugins set_plugins]. split.
  - rewrite ?Hv, filter_app. cbn [filter].
    unfold plugin_matches at 2. cbn [p_plugin p_version].
    rewrite String.eqb_refl, version_eqb_refl. cbn [andb].
    rewrite map_app. cbn [map].
    destruct (existsb (plugin_matches name sought) rows) eqn:E.
    + destruct (match_nonempty _ _ _ E) as [r [l ->]]. reflexivity.
    + now rewrite (no_match_empty _ _ _ E).
  - intros name2 v2 sought2 Hv2 Hne. rewrite Hv2, filter_app. cbn [filter].
    destruct (plugin_matches name2 sought2 (mk_plugin (next_id rows) name sought None))
      eqn:E2.
    + assert (E1 : plugin_matches name sought (mk_plugin (next_id rows) name sought None)
                   = true).
      { unfold plugin_matches. cbn [p_plugin p_version].
        now rewrite String.eqb_refl, version_eqb_refl. }
      destruct (matches_same_key _ _ _ _ _ E1 E2) as [Hn Hs].
      destruct Hne; contradiction.
    + now rewrite List.app_nil_r.
Qed.

Lemma create_then_load_plugin_witness :
  plugin_load_entry "deezer" "0.1" (fst (plugin_create_entry "deezer" "0.1" registry))
  = (if has_plugin "deezer" (VReal "0.1") registry
     then plugin_load_entry "deezer" "0.1" registry else Returns PNone)
  /\ forall name2 v2 sought2,
       real_affinity v2 = Some sought2 ->
       name2 <> "deezer" \/ sought2 <> VReal "0.1" ->
       plugin_load_entry name2 v2 (fst (plugin_create_entry "deezer" "0.1" registry))
       = plugin_load_entry name2 v2 registry.
Proof.
  apply (create_then_load_plugin "deezer" "0.1" (VReal "0.1") registry []); reflexivity.
Defined.

(** X14: with the table in place [plugin_entry_exists] never returns an
    empty list: it returns the one-element list [[False]] exactly when no
    row has the name, and otherwise the versions of the rows that have it,
    of which there is at least one and none is [False]. *)
Theorem entry_exists_shape :
  forall (name : string) (d : db) (rows : list plugin_row),
    plugins d = Some rows ->
    plugin_entry_exists name d
    = Returns (PList (if existsb (named name) rows
                      then map PStr (stored_versions name rows)
                      else [PBool false]))
    /\ (existsb (named name) rows = true -> stored_versions name rows <> [])
    /\ exists l, plugin_entry_exists name d = Returns (PList l) /\ l <> [].
Proof.
  intros name d rows Hd.
  assert (Hshape : plugin_entry_exists name d
                   = Returns (PList (if existsb (named name) rows
                                     then map PStr (stored_versions name rows)
                                     else [PBool false]))).
  { unfold plugin_entry_exists, stored_versions, named. rewrite Hd.
    destruct (existsb (fun r => String.eqb (p_plugin r) name) rows) eqn:E.
    - destruct (filter (fun r => String.eqb (p_plugin r) name) rows) as [|r l] eqn:Ef.
      + apply existsb_exists in E as [r [Hin Hr]].
        assert (Hin' : In r (filter (fun r => String.eqb (p_plugin r) name) rows))
          by (apply filter_In; auto).
        rewrite Ef in Hin'. contradiction.
      + simpl. rewrite !map_map. reflexivity.
    - now rewrite (AppletFacts.filter_none _ _ E). }
  assert (Hne : existsb (named name) rows = true -> stored_versions name rows <> []).
  { intro E. unfold stored_versions.
    destruct (filter (named name) rows) as [|r l] eqn:Ef; [|discriminate].
    apply existsb_exists in E as [r [Hin Hr]].
    assert (Hin' : In r (filter (named name) rows)) by (apply filter_In; auto).
    rewrite Ef in Hin'. contradiction. }
  split; [exact Hshape|]. split; [exact Hne|].
  eexists; split; [exact Hshape|].
  destruct (existsb (named name) rows) eqn:E; [|discriminate].
  specialize (Hne eq_refl). destruct (stored_versions name rows); [congruence | discriminate].
Qed.

Lemma entry_exists_shape_witness :
  plugin_entry_exists "spotify" (create2 "spotify" "1.0" "2.0" registry)
  = Returns (PList [PStr "1.0"; PStr "2.0"])
  /\ exists l, plugin_entry_exists "deezer" (create2 "spotify" "1.0" "2.0" registry)
               = Returns (PList l) /\ l <> [].
Proof.
  destruct (entry_exists_shape "spotify" (create2 "spotify" "1.0" "2.0" registry)
              [mk_plugin 1 "spotify" (VReal "1.0") None;
               mk_plugin 2 "spotify" (VReal "2.0") None] eq_refl) as [H _].
  destruct (entry_exists_shape "deezer" (create2 "spotify" "1.0" "2.0" registry)
              [mk_plugin 1 "spotify" (VReal "1.0") None;
               mk_plugin 2 "spotify" (VReal "2.0") None] eq_refl) as [_ [_ H']].
  split; [exact H | exact H'].
Defined.

End PluginLaws.

(** * Further facts about the global settings *)

Module SettingsLaws.
Import Text Python Sqlite Database Observe SettingsSpec Samples Listing.

Lemma update_value_keys k v rows :
  map s_key (update_value k v rows) = map s_key rows.
Proof.
  destruct k as [key|]; [|reflexivity]. simpl.
  rewrite map_map. apply map_ext. intro r. now destruct (key_is key r).
Qed.

Lemma update_settings_keys settings :
  forall rows, map s_key (fst (update_settings rows settings)) = map s_key rows.
Proof.
  induction settings as [|p settings IH]; intro rows; simpl; [reflexivity|].
  destruct (bind (fst p)) as [v| |]; try reflexivity.
  destruct (bind (snd p)) as [k| |]; try reflexivity.
  rewrite IH. apply update_value_keys.
Qed.

(** X15: [global_settings_save] never adds, removes or renames a row: the
    keys of the table, in row order, are the same after the call,
    whatever the tuples and however the call ends. *)
Theorem save_keeps_keys :
  forall (settings : list (pyval * pyval)) (d : db),
    setting_keys (fst (global_settings_save settings d)) = setting_keys d.
Proof.
  intros settings d. unfold global_settings_save, setting_keys.
  destruct (ultrasonics d) as [rows|] eqn:E; [|cbn [fst]; now rewrite E].
  pose proof (update_settings_keys settings rows) as H.
  destruct (update_settings rows settings) as [rows' [| |]];
    cbn [fst ultrasonics set_ultrasonics] in *; rewrite ?E; auto.
Qed.

Lemma key_eqb_strings a b : key_eqb (PStr a) (PStr b) = String.eqb a b.
Proof. reflexivity. Qed.

Lemma key_is_spec key r :
  key_is key r = key_eqb (PStr key) (py_of_text (s_key r)).
Proof. unfold key_is. destruct (s_key r) as [k|]; simpl; [apply String.eqb_sym | reflexivity]. Qed.

Lemma not_stored key n rows :
  existsb (key_is key) rows = false -> key_eqb n (PStr key) = true ->
  spec_stored rows n = None.
Proof.
  intros H Hn. apply SettingsFacts.key_eqb_str in Hn. subst n.
  induction rows as [|r rows IH]; simpl in *; [reflexivity|].
  apply orb_false_iff in H as [Hr Hrest]. rewrite (IH Hrest).
  now rewrite <- key_is_spec, Hr.
Qed.

Lemma stored_after_update key value n rows :
  spec_stored (update_value (Some key) (Some value) rows) n
  = if key_eqb n (PStr key) && existsb (key_is key) rows
    then Some (PStr value) else spec_stored rows n.
Proof.
  induction rows as [|r rows IH]; [now rewrite andb_false_r|].
  simpl update_value in *. cbn [map spec_stored existsb]. rewrite IH.
  destruct (key_eqb n (PStr key)) eqn:En; cbn [andb].
  - pose proof (SettingsFacts.key_eqb_str _ _ En) as ->.
    destruct (key_is key r) eqn:Er; cbn [orb s_key s_value py_of_text].
    + destruct (existsb (key_is key) rows) eqn:Ex; [reflexivity|].
      rewrite (not_stored key (PStr key) rows Ex En).
      rewrite key_is_spec in Er. now rewrite Er.
    + destruct (existsb (key_is key) rows) eqn:Ex; [reflexivity|].
      reflexivity.
  - destruct (key_is key r) eqn:Er; [|reflexivity].
    cbn [s_key s_value py_of_text].
    destruct (spec_stored rows n); [reflexivity|].
    unfold key_is in Er. destruct (s_key r) as [k|]; [|discriminate].
    apply String.eqb_eq in Er. subst k. cbn [py_of_text]. now rewrite En.
Qed.

Lemma save_one value key d rows :
  ultrasonics d = Some rows ->
  ultrasonics (fst (global_settings_save [(PStr value, PStr key)] d))
  = Some (update_value (Some key) (Some value) rows).
Proof. intro H. unfold global_settings_save. now rewrite H. Qed.

(** X16: a value saved under a key is what the raw load gives for the key
    when the table has the key, and a key the table does not have stays
    absent (a save never inserts); every other key gives what it gave. *)
Theorem save_then_load_raw :
  forall (gs : list dict) (key value : string) (d : db) (rows : list setting_row),
    ultrasonics d = Some rows ->
    exists data,
      global_settings_load gs true (fst (global_settings_save [(PStr value, PStr key)] d))
      = Returns (PDict data)
      /\ dict_get data (PStr key)
         = (if has_setting key d then Some (PStr value) else None)
      /\ forall other, other <> key ->
           dict_get data (PStr other) = dict_get (raw_settings rows) (PStr other).
Proof.
  intros gs key value d rows Hd.
  exists (raw_settings (update_value (Some key) (Some value) rows)).
  unfold global_settings_load. rewrite (save_one value key d rows Hd).
  split; [reflexivity|]. unfold raw_settings, has_setting. rewrite Hd. split.
  - rewrite SettingsFacts.raw_lookup, stored_after_update.
    rewrite key_eqb_strings, String.eqb_refl. cbn [andb].
    destruct (existsb (key_is key) rows) eqn:E; [reflexivity|].
    now rewrite (not_stored key (PStr key) rows E) by apply String.eqb_refl.
  - intros other Hne. rewrite !SettingsFacts.raw_lookup, stored_after_update.
    rewrite key_eqb_strings.
    apply String.eqb_neq in Hne. now rewrite Hne.
Qed.

Lemma save_then_load_raw_witness :
  exists data,
    global_settings_load global_settings true
      (fst (global_settings_save [(PStr "https://custom/", PStr "api_url")]
              (seeded global_settings process_metadata empty_db)))
    = Returns (PDict data)
    /\ dict_get data (PStr "api_url") = Some (PStr "https://custom/").
Proof.
  destruct (save_then_load_raw global_settings "api_url" "https://custom/"
              (seeded global_settings process_metadata empty_db)
              [mk_setting (Some "version") (Some "1.0.0");
               mk_setting (Some "new_install") (Some "1");
               mk_setting (Some "api_url")
                          (Some "https://ultrasonics-api.herokuapp.com/api/")]
              eq_refl) as [data [H [Hk _]]].
  exists data. split; [exact H | exact Hk].
Defined.

(** X17: after a value has been saved under a key the table has,
    [global_settings_load()] gives the schema in which the configurable
    descriptors named by the key carry the value and every other
    descriptor is as the load made it before the save. *)
Theorem save_then_load :
  forall (gs : list dict) (key value : string) (d : db) (rows : list setting_row),
    ultrasonics d = Some rows ->
    schema_ok gs = true ->
    has_setting key d = true ->
    global_settings_load gs false d = Returns (PList (map PDict (spec_load rows gs)))
    /\ global_settings_load gs false
         (fst (global_settings_save [(PStr value, PStr key)] d))
       = Returns (PList (map PDict (map (resaved key value rows) gs))).
Proof.
  intros gs key value d rows Hd Hok Hhas.
  destruct (SettingsFacts.compatible_names gs Hok) as [names [Hn Hin]].
  unfold global_settings_load. rewrite (save_one value key d rows Hd), Hd, Hn.
  rewrite !(SettingsFacts.merge_rows_spec gs names Hok Hin).
  split; [reflexivity|]. do 3 f_equal. unfold spec_load.
  apply map_ext_in. intros item Hitem.
  unfold schema_ok in Hok. rewrite forallb_forall in Hok. specialize (Hok _ Hitem).
  unfold resaved, spec_merge, item_ok, spec_configurable in *.
  destruct (dict_get item (PStr "type")) as [t|]; [|discriminate].
  destruct (is_setting_type t), (name_of item) as [n|]; try discriminate;
    try reflexivity.
  rewrite stored_after_update.
  unfold has_setting in Hhas. rewrite Hd in Hhas. rewrite Hhas, andb_true_r.
  now destruct (key_eqb n (PStr key)).
Qed.

Lemma save_then_load_witness :
  global_settings_load global_settings false
    (seeded global_settings process_metadata empty_db)
  = Returns (PList (map PDict
               (spec_load
                  [mk_setting (Some "version") (Some "1.0.0");
                   mk_setting (Some "new_install") (Some "1");
                   mk_setting (Some "api_url")
                              (Some "https://ultrasonics-api.herokuapp.com/api/")]
                  global_settings)))
  /\ global_settings_load global_settings false
       (fst (global_settings_save [(PStr "https://custom/", PStr "api_url")]
               (seeded global_settings process_metadata empty_db)))
     = Returns (PList (map PDict
                  (map (resaved "api_url" "https://custom/"
                          [mk_setting (Some "version") (Some "1.0.0");
                           mk_setting (Some "new_install") (Some "1");
                           mk_setting (Some "api_url")
                                      (Some "https://ultrasonics-api.herokuapp.com/api/")])
                       global_settings))).
Proof.
  apply (save_then_load global_settings "api_url" "https://custom/"
           (seeded global_settings process_metadata empty_db)); reflexivity.
Defined.

Lemma update_settings_ok good :
  forall rows, all_bindable good = true ->
    snd (update_settings rows good) = Ok.
Proof.
  induction good as [|p good IH]; intros rows H; simpl; [reflexivity|].
  simpl in H. apply andb_true_iff in H as [Hp Hg].
  apply andb_true_iff in Hp as [Hv Hk]. unfold bindable in *.
  destruct (bind (fst p)); try discriminate.
  destruct (bind (snd p)); try discriminate. now apply IH.
Qed.

Lemma update_settings_app good more :
  forall rows, all_bindable good = true ->
    update_settings rows (good ++ more)
    = update_settings (fst (update_settings rows good)) more.
Proof.
  induction good as [|p good IH]; intros rows H; simpl; [reflexivity|].
  simpl in H. apply andb_true_iff in H as [Hp Hg].
  apply andb_true_iff in Hp as [Hv Hk]. unfold bindable in *.
  destruct (bind (fst p)); try discriminate.
  destruct (bind (snd p)); try discriminate. now apply IH.
Qed.

Lemma update_settings_stops p rest rows :
  bind_status p <> Ok ->
  update_settings rows (p :: rest) = (rows, bind_status p).
Proof.
  unfold bind_status. simpl.
  destruct (bind (fst p)), (bind (snd p)); try reflexivity. congruence.
Qed.

(** X18: [global_settings_save] stops at the first tuple sqlite3 cannot
    bind and looks at no later one.  When the tuple holds a value of an
    unsupported type, the tuples before it stay applied, the error is
    caught and the call returns; when it holds an integer beyond 64 bits,
    the [OverflowError] leaves the function and nothing at all is
    applied. *)
Theorem save_stops_at_unbindable :
  forall (good : list (pyval * pyval)) (bad : pyval * pyval)
         (rest : list (pyval * pyval)) (d : db),
    ultrasonics d <> None ->
    all_bindable good = true ->
    bind_status bad <> Ok ->
    match bind_status bad with
    | Failed =>
        fst (global_settings_save (good ++ bad :: rest) d)
        = fst (global_settings_save good d)
        /\ snd (global_settings_save (good ++ bad :: rest) d)
           = Caught "Error while updating settings database"
    | _ =>
        global_settings_save (good ++ bad :: rest) d = (d, Raises OverflowError)
    end.
Proof.
  intros good bad rest d Hd Hgood Hbad. unfold global_settings_save.
  destruct (ultrasonics d) as [rows|]; [clear Hd | congruence].
  rewrite (update_settings_app good (bad :: rest) rows Hgood).
  rewrite (update_settings_stops bad rest _ Hbad).
  pose proof (update_settings_ok good rows Hgood) as Hok.
  destruct (update_settings rows good) as [rows' st]. simpl in Hok. subst st.
  cbn [fst snd]. destruct (bind_status bad); [congruence | split; reflexivity | reflexivity].
Qed.

Lemma save_stops_at_unbindable_witness :
  (fst (global_settings_save
          [(PStr "https://custom/", PStr "api_url"); (PList [], PStr "api_url");
           (PStr "later", PStr "api_url")] customised)
   = fst (global_settings_save [(PStr "https://custom/", PStr "api_url")] customised)
   /\ snd (global_settings_save
             [(PStr "https://custom/", PStr "api_url"); (PList [], PStr "api_url");
              (PStr "later", PStr "api_url")] customised)
      = Caught "Error while updating settings database")
  /\ global_settings_save
       [(PStr "https://other/", PStr "api_url"); (PInt (2 ^ 63), PStr "api_url")]
       customised
     = (customised, Raises OverflowError).
Proof.
  split.
  - apply (save_stops_at_unbindable [(PStr "https://custom/", PStr "api_url")]
             (PList [], PStr "api_url") [(PStr "later", PStr "api_url")] customised);
      [discriminate | reflexivity | discriminate].
  - apply (save_stops_at_unbindable [(PStr "https://other/", PStr "api_url")]
             (PInt (2 ^ 63), PStr "api_url") [] customised);
      [discriminate | reflexivity | discriminate].
Defined.

End SettingsLaws.

(** * Further facts about the connection and the installation flag *)

Module ConnectLaws.
Import Text Python Sqlite Database Observe SettingsSpec Samples Listing.

Lemma key_is_updated key k v r :
  key_is key (if key_is k r then mk_setting (s_key r) v else r) = key_is key r.
Proof. now destruct (key_is k r). Qed.

Lemma select_other key k v rows :
  key <> k ->
  select_value key (update_value (Some k) v rows) = select_value key rows.
Proof.
  intro Hne. unfold select_value, update_value.
  induction rows as [|r rows IH]; simpl; [reflexivity|].
  rewrite key_is_updated. destruct (key_is key r) eqn:E; simpl; [|exact IH].
  rewrite IH. f_equal. destruct (key_is k r) eqn:Ek; [|reflexivity].
  unfold key_is in E, Ek. destruct (s_key r) as [x|]; [|discriminate].
  apply String.eqb_eq in E. apply String.eqb_eq in Ek. congruence.
Qed.

Lemma update_value_twice k v rows :
  update_value (Some k) v (update_value (Some k) v rows) = update_value (Some k) v rows.
Proof.
  unfold update_value. rewrite map_map. apply map_ext. intro r.
  destruct (key_is k r) eqn:E; [|now rewrite E].
  unfold key_is at 1. cbn [s_key]. fold (key_is k r). now rewrite E.
Qed.

Lemma select_some k rows :
  existsb (key_is k) rows = true ->
  exists v rest, select_value k rows = v :: rest.
Proof.
  unfold select_value. induction rows as [|r rows IH]; simpl; [discriminate|].
  destruct (key_is k r); simpl; [eauto | exact IH].
Qed.

Lemma select_none k rows :
  existsb (key_is k) rows = false -> select_value k rows = [].
Proof.
  unfold select_value. induction rows as [|r rows IH]; simpl; [reflexivity|].
  destruct (key_is k r); simpl; [discriminate | exact IH].
Qed.

(** X19: [new_install(update=True)] changes nothing but the value of the
    rows keyed ["new_install"], which becomes the text [0]: the keys of
    the settings table, the values stored under every other key and the
    other two tables are as before, and a second call changes nothing
    more. *)
Theorem mark_scoped :
  forall (d : db),
    setting_keys (marked d) = setting_keys d
    /\ stored_values "new_install" (marked d)
       = map (fun _ => Some "0") (stored_values "new_install" d)
    /\ (forall key, key <> "new_install" ->
          stored_values key (marked d) = stored_values key d)
    /\ plugins (marked d) = plugins d
    /\ applets (marked d) = applets d
    /\ marked (marked d) = marked d.
Proof.
  intro d. unfold marked, new_install, setting_keys, stored_values.
  destruct (ultrasonics d) as [rows|] eqn:E; cbn [fst ultrasonics set_ultrasonics];
    rewrite ?E.
  - split; [apply SettingsLaws.update_value_keys|].
    split; [apply SettingsFacts.select_updated|].
    split; [intros key Hne; now apply select_other|].
    split; [reflexivity|]. split; [reflexivity|].
    cbn [plugins applets fst]. unfold set_ultrasonics. cbn [plugins applets].
    now rewrite update_value_twice.
  - repeat split; reflexivity.
Qed.

(** X20: the installation flag survives a restart: once the settings
    table has the row and [new_install(update=True)] has run, a later
    [connect()] leaves the settings table and the metadata dict as they
    are, and [new_install()] still returns [False]. *)
Theorem flag_survives_restart :
  forall (gs : list dict) (meta : dict) (d : db),
    has_setting "new_install" d = true ->
    ultrasonics (connect_db gs meta (marked d)) = ultrasonics (marked d)
    /\ connect_meta gs meta (marked d) = meta
    /\ snd (new_install false (connect_db gs meta (marked d))) = Returns (PBool false).
Proof.
  intros gs meta d H. unfold has_setting in H.
  destruct (ultrasonics d) as [rows|] eqn:E; [|discriminate].
  destruct (select_some _ _ H) as [v [rest Hsel]].
  assert (Hm : ultrasonics (marked d)
               = Some (update_value (Some "new_install") (Some "0") rows)).
  { unfold marked, new_install. now rewrite E. }
  assert (Hflag : select_value "new_install"
                    (update_value (Some "new_install") (Some "0") rows)
                  = Some "0" :: map (fun _ => Some "0") rest).
  { now rewrite SettingsFacts.select_updated, Hsel. }
  assert (Hc : connect gs meta (marked d)
               = (let (d', o') := connect_tables meta (marked d) in (d', meta, o'))).
  { unfold connect, new_install at 1. rewrite Hm, Hflag. reflexivity. }
  split; [|split].
  - unfold connect_db. rewrite Hc. reflexivity.
  - unfold connect_meta. rewrite Hc. reflexivity.
  - unfold connect_db. rewrite Hc. unfold new_install.
    cbn [connect_tables fst snd ultrasonics set_applets set_plugins].
    rewrite Hm, Hflag. reflexivity.
Qed.

Lemma flag_survives_restart_witness :
  ultrasonics (connect_db global_settings process_metadata
                 (marked (seeded global_settings process_metadata empty_db)))
  = ultrasonics (marked (seeded global_settings process_metadata empty_db))
  /\ connect_meta global_settings process_metadata
       (marked (seeded global_settings process_metadata empty_db))
     = process_metadata
  /\ snd (new_install false
            (connect_db global_settings process_metadata
               (marked (seeded global_settings process_metadata empty_db))))
     = Returns (PBool false).
Proof.
  apply (flag_survives_restart global_settings process_metadata
           (seeded global_settings process_metadata empty_db)).
  reflexivity.
Defined.

(** X21: a settings table without a ["new_install"] row stops the
    start-up: [new_install()] raises [IndexError], the error leaves
    [connect()] as well, and [connect()] has created no table and written
    nothing, neither to the database nor to the metadata dict. *)
Theorem flag_row_missing :
  forall (gs : list dict) (meta : dict) (d : db) (rows : list setting_row),
    ultrasonics d = Some rows ->
    has_setting "new_install" d = false ->
    new_install false d = (d, Raises IndexError)
    /\ connect gs meta d = (d, meta, Raises IndexError).
Proof.
  intros gs meta d rows E H. unfold has_setting in H. rewrite E in H.
  unfold connect, new_install. rewrite E, (select_none _ _ H). split; reflexivity.
Qed.

Lemma flag_row_missing_witness :
  new_install false (mk_db (Some [mk_setting (Some "version") (Some "1.0.0")]) None None)
  = (mk_db (Some [mk_setting (Some "version") (Some "1.0.0")]) None None,
     Raises IndexError)
  /\ connect global_settings process_metadata
       (mk_db (Some [mk_setting (Some "version") (Some "1.0.0")]) None None)
     = (mk_db (Some [mk_setting (Some "version") (Some "1.0.0")]) None None,
        process_metadata, Raises IndexError).
Proof.
  apply (flag_row_missing global_settings process_metadata
           (mk_db (Some [mk_setting (Some "version") (Some "1.0.0")]) None None)
           [mk_setting (Some "version") (Some "1.0.0")]); reflexivity.
Defined.

Ltac connect_cases gs d :=
  unfold connect_db, connect;
  destruct (new_install false d) as [d0 [v|msg|e|]];
  cbn [returned fst]; try reflexivity;
  try destruct v;
  try (destruct (global_settings_database gs) as [defaults|]; [|reflexivity];
       destruct (insert_settings _ _) as [rows1 [| |]]; try reflexivity;
       destruct (insert_settings rows1 defaults) as [rows2 [| |]]; try reflexivity);
  unfold connect_tables;
  cbn [fst set_plugins set_applets set_ultrasonics ultrasonics plugins applets].

(** X22: [connect()] never removes or changes a row of [plugins] or
    [applets], however it ends, and a settings table that is there is
    left with its rows. *)
Theorem connect_keeps_rows :
  forall (gs : list dict) (meta : dict) (d : db),
    rows_of (plugins (connect_db gs meta d)) = rows_of (plugins d)
    /\ rows_of (applets (connect_db gs meta d)) = rows_of (applets d)
    /\ forall rows, ultrasonics d = Some rows ->
         ultrasonics (connect_db gs meta d) = Some rows.
Proof.
  intros gs meta d.
  split; [|split; [|intros rows H; now apply SettingsFacts.connect_keeps_settings]].
  - connect_cases gs d; now destruct (plugins d).
  - connect_cases gs d; now destruct (applets d).
Qed.

Lemma key_row s m :
  forall v, dict_get m (PStr s) = Some v ->
    existsb (key_is s) (map row_of m) = true.
Proof.
  induction m as [|[k' v'] m IH]; intros v H; simpl in *; [discriminate|].
  destruct (key_eqb k' (PStr s)) eqn:E.
  - apply SettingsFacts.key_eqb_str in E. subst k'.
    unfold key_is, row_of, cell_of. cbn [fst bind text_affinity s_key].
    now rewrite String.eqb_refl.
  - rewrite (IH v H). apply orb_true_r.
Qed.

(** X23: the first [connect()] on a store without settings table, with
    metadata that has a ["version"] and with metadata and defaults that
    sqlite3 can bind, returns [None] and leaves all three tables in
    place; the shared metadata dict has got ["new_install"] set to [True]
    and keeps its other entries. *)
Theorem connect_first_run :
  forall (gs : list dict) (meta : dict) (d : db)
         (defaults : list (pyval * pyval)) (version : pyval),
    ultrasonics d = None ->
    global_settings_database gs = Some defaults ->
    all_bindable meta = true -> all_bindable defaults = true ->
    dict_get meta (PStr "version") = Some version ->
    snd (connect gs meta d) = Returns PNone
    /\ tables (connect_db gs meta d) = (true, true, true)
    /\ dict_get (connect_meta gs meta d) (PStr "new_install") = Some (PBool true)
    /\ forall k, key_eqb (PStr "new_install") k = false ->
         dict_get (connect_meta gs meta d) k = dict_get meta k.
Proof.
  intros gs meta d defaults version Hd Hg Hm Hdf Hv.
  set (meta' := dict_set meta (PStr "new_install") (PBool true)).
  assert (Hv' : dict_get meta' (PStr "version") = Some version).
  { unfold meta'. now rewrite SettingsFacts.dict_get_set_other. }
  assert (Hrow : exists x rest,
             select_value "version" (map row_of meta' ++ map row_of defaults)%list
             = x :: rest).
  { apply select_some. rewrite existsb_app, (key_row "version" meta' version Hv').
    reflexivity. }
  destruct Hrow as [x [rest Hsel]].
  assert (Hc : connect gs meta d
               = (let (d', o') :=
                    connect_tables meta'
                      (set_ultrasonics (set_ultrasonics d (Some []))
                         (Some (map row_of meta' ++ map row_of defaults)%list))
                  in (d', meta', o'))).
  { unfold connect, new_install. rewrite Hd. cbn [returned]. rewrite Hg.
    cbn [create_if_absent set_ultrasonics ultrasonics]. fold meta'.
    rewrite (SettingsFacts.insert_settings_ok meta' []
               (SettingsFacts.all_bindable_set meta (PStr "new_install") (PBool true)
                  Hm eq_refl eq_refl)).
    rewrite (SettingsFacts.insert_settings_ok defaults _ Hdf). reflexivity. }
  unfold connect_db, connect_meta. rewrite Hc. unfold connect_tables, version_check.
  cbn [fst snd set_plugins set_applets set_ultrasonics ultrasonics plugins applets].
  rewrite Hsel, Hv'. split; [reflexivity|]. split.
  - unfold tables. cbn [ultrasonics plugins applets].
    now destruct (plugins d), (applets d).
  - split.
    + unfold meta'. now apply SettingsFacts.dict_get_set_same.
    + intros k Hk. unfold meta'. now apply SettingsFacts.dict_get_set_other.
Qed.

Lemma connect_first_run_witness :
  snd (connect global_settings process_metadata empty_db) = Returns PNone
  /\ tables (connect_db global_settings process_metadata empty_db) = (true, true, true)
  /\ dict_get (connect_meta global_settings process_metadata empty_db)
       (PStr "new_install") = Some (PBool true)
  /\ forall k, key_eqb (PStr "new_install") k = false ->
       dict_get (connect_meta global_settings process_metadata empty_db) k
       = dict_get process_metadata k.
Proof.
  apply (connect_first_run global_settings process_metadata empty_db
           [(PStr "api_url", PStr "https://ultrasonics-api.herokuapp.com/api/")]
           (PStr "1.0.0")); reflexivity.
Defined.

Lemma version_check_no_overflow meta d : version_check meta d <> Raises OverflowError.
Proof.
  unfold version_check. destruct (ultrasonics d) as [rows|]; [|discriminate].
  destruct (select_value "version" rows); [discriminate|].
  destruct (dict_get meta (PStr "version")); discriminate.
Qed.

(** X24: an [OverflowError] can leave [connect()] only during the seeding
    of a store without settings table, and it leaves the store stuck: the
    settings table has been created and is empty, nothing else has
    changed, and every later [connect()], with whatever schema and
    metadata, raises [IndexError] and changes nothing. *)
Theorem seeding_overflow_sticks :
  forall (gs : list dict) (meta : dict) (d : db),
    snd (connect gs meta d) = Raises OverflowError ->
    ultrasonics d = None
    /\ connect_db gs meta d = set_ultrasonics d (Some [])
    /\ forall gs' meta',
         connect gs' meta' (connect_db gs meta d)
         = (connect_db gs meta d, meta', Raises IndexError).
Proof.
  intros gs meta d H.
  assert (Hstuck : forall gs' meta',
             connect gs' meta' (set_ultrasonics d (Some []))
             = (set_ultrasonics d (Some []), meta', Raises IndexError)) by reflexivity.
  unfold connect_db. unfold connect, new_install in H |- *.
  destruct (ultrasonics d) as [rows|] eqn:E.
  - exfalso.
    destruct (select_value "new_install" rows); [discriminate|].
    cbn [returned] in H. revert H. unfold connect_tables. cbn [snd].
    apply version_check_no_overflow.
  - split; [reflexivity|]. cbn [returned] in H |- *.
    destruct (global_settings_database gs) as [defaults|]; [|discriminate].
    cbn [create_if_absent set_ultrasonics ultrasonics] in H |- *.
    destruct (insert_settings [] _) as [rows1 [| |]]; try discriminate.
    + destruct (insert_settings rows1 defaults) as [rows2 [| |]]; try discriminate.
      * exfalso. revert H. unfold connect_tables. cbn [snd].
        apply version_check_no_overflow.
      * cbn [fst]. split; [reflexivity | exact Hstuck].
    + cbn [fst]. split; [reflexivity | exact Hstuck].
Qed.

Lemma seeding_overflow_sticks_witness :
  ultrasonics empty_db = None
  /\ connect_db global_settings oversized_metadata empty_db
     = set_ultrasonics empty_db (Some [])
  /\ forall gs' meta',
       connect gs' meta' (connect_db global_settings oversized_metadata empty_db)
       = (connect_db global_settings oversized_metadata empty_db, meta',
          Raises IndexError).
Proof.
  apply (seeding_overflow_sticks global_settings oversized_metadata empty_db).
  reflexivity.
Defined.

(** X25: no operation but [connect()] creates or drops a table: after
    each of the seven writing operations the same tables exist as
    before, whatever the arguments and however the call ends. *)
Theorem only_connect_creates_tables :
  forall (d : db) (update : bool) (settings : list (pyval * pyval))
         (name version applet_id : string) (data : pyval),
    tables (fst (new_install update d)) = tables d
    /\ tables (fst (global_settings_save settings d)) = tables d
    /\ tables (fst (plugin_create_entry name version d)) = tables d
    /\ tables (fst (plugin_update_entry name version data d)) = tables d
    /\ tables (fst (applet_create_entry applet_id data d)) = tables d
    /\ tables (fst (applet_delete_entry applet_id d)) = tables d
    /\ tables (fst (applet_update_lastrun applet_id data d)) = tables d.
Proof.
  intros d update settings name version applet_id data.
  unfold tables, new_install, global_settings_save, plugin_create_entry,
    plugin_update_entry, applet_create_entry, applet_delete_entry,
    applet_update_lastrun.
  destruct d as [[u|] [p|] [a|]]; cbn [ultrasonics plugins applets];
    repeat apply conj;
    repeat match goal with
           | |- context [match select_value ?k ?r with _ => _ end] =>
               destruct (select_value k r)
           | |- context [match update_settings ?r ?s with _ => _ end] =>
               destruct (update_settings r s) as [? [| |]]
           | |- context [match real_affinity ?v with _ => _ end] =>
               destruct (real_affinity v)
           end;
    try reflexivity; now destruct update.
Qed.

End ConnectLaws.
